(** * veri.bet scraper: text normalisation, date resolution, row extraction

    A shallow embedding of [parse_veri_bet.py].

    - A Python [str] is a list of characters.  The character tests are
      those of the ASCII range: digits 0 to 9, the blanks of [str.isspace],
      the letters a to z for [upper].
    - A Python [float] is the exact rational its numeral denotes (Python
      keeps the nearest double; 3.5, 0.0 and -7.0 are exact).
    - The scraper object, the list under construction and the logger are
      an explicit state; a computation returns the new state and either a
      value or the exception it raised, and the state changes made before
      a raise are kept, as on Python's heap.
    - The browser is what its lookups return: a page gives the outcome of
      the wait for the date control, the outcome of the wait for the rows,
      and the first badge with FINAL in its text; a row gives the texts of
      the elements each selector finds.  [text], [get_attribute] and
      [find_elements] themselves raise nothing.
    - The clock readings of a turn of the main loop are part of what the
      turn meets. *)

From Stdlib Require Import List Bool Arith Lia Ascii String ZArith QArith.
Import ListNotations.

Set Implicit Arguments.
Close Scope Q_scope.
Open Scope string_scope.
Open Scope list_scope.
Open Scope nat_scope.

(** ** Texts *)

Module Text.

Definition text := list ascii.

(** String literals are read as texts. *)
Coercion list_ascii_of_string : string >-> list.

Definition code (c : ascii) : nat := nat_of_ascii c.

Definition is_digit (c : ascii) : bool :=
  (48 <=? code c) && (code c <=? 57).

Definition is_sign (c : ascii) : bool :=
  (code c =? 43) || (code c =? 45).

(** [str.isspace] on the ASCII range: TAB..CR, FS..US and the blank. *)
Definition is_space (c : ascii) : bool :=
  ((9 <=? code c) && (code c <=? 13)) ||
  ((28 <=? code c) && (code c <=? 32)).

Fixpoint drop_while (p : ascii -> bool) (s : text) : text :=
  match s with
  | c :: t => if p c then drop_while p t else s
  | [] => []
  end.

Fixpoint take_while (p : ascii -> bool) (s : text) : text :=
  match s with
  | c :: t => if p c then c :: take_while p t else []
  | [] => []
  end.

(** [str.strip()] *)
Definition lstrip (s : text) : text := drop_while is_space s.
Definition rstrip (s : text) : text := rev (drop_while is_space (rev s)).
Definition strip (s : text) : text := rstrip (lstrip s).

(** [str.upper()] on ASCII letters *)
Definition upper_char (c : ascii) : ascii :=
  if (97 <=? code c) && (code c <=? 122) then ascii_of_nat (code c - 32) else c.
Definition upper (s : text) : text := map upper_char s.

Fixpoint starts_with (p s : text) : bool :=
  match p, s with
  | [], _ => true
  | a :: p', b :: s' => if Ascii.eqb a b then starts_with p' s' else false
  | _ :: _, [] => false
  end.

(** [sub in s] *)
Fixpoint contains (sub s : text) : bool :=
  starts_with sub s ||
  match s with
  | [] => false
  | _ :: t => contains sub t
  end.

(** [s.split(sep)] for a non-empty separator: occurrences are taken left to
    right without overlap; [skip] counts the separator characters still to
    be passed over, [cur] holds the current piece in reverse. *)
Fixpoint split_go (sep : text) (skip : nat) (cur : text) (s : text) : list text :=
  match s with
  | [] => [rev cur]
  | c :: t =>
      match skip with
      | S n => split_go sep n cur t
      | O =>
          if starts_with sep s
          then rev cur :: split_go sep (List.length sep - 1) [] t
          else split_go sep 0 (c :: cur) t
      end
  end.

Definition split (sep s : text) : list text := split_go sep 0 [] s.

(** [s.replace(old, new)] for a non-empty [old]. *)
Fixpoint replace_go (old new : text) (skip : nat) (s : text) : text :=
  match s with
  | [] => []
  | c :: t =>
      match skip with
      | S n => replace_go old new n t
      | O =>
          if starts_with old s
          then new ++ replace_go old new (List.length old - 1) t
          else c :: replace_go old new 0 t
      end
  end.

Definition replace (old new s : text) : text := replace_go old new 0 s.

(** [l[-1]] of a list that [split] returned (never empty). *)
Definition last_piece (l : list text) : text := last l [].

End Text.
Export Text.

(** ** Exceptions *)

Inductive exn : Type :=
| IndexError
| ValueError
| TypeError
| AttributeError
| TimeoutException
| NoSuchElementException.

Inductive result (A : Type) : Type :=
| Ok (a : A)
| Raise (e : exn).
Arguments Ok {A} a.
Arguments Raise {A} e.

Definition exn_eqb (a b : exn) : bool :=
  match a, b with
  | IndexError, IndexError | ValueError, ValueError | TypeError, TypeError
  | AttributeError, AttributeError | TimeoutException, TimeoutException
  | NoSuchElementException, NoSuchElementException => true
  | _, _ => false
  end.

(** ** Regular expressions

    The fragment of Python's [re] the scraper and [strptime] use, with the
    backtracking matcher's priorities: alternatives left to right, [?] and
    [+] greedy. *)

Module Regex.

Inductive regex : Type :=
| Chr (c : ascii)
| Cls (p : ascii -> bool)
| Cat (r1 r2 : regex)
| Alt (r1 r2 : regex)
| Opt (r : regex)
| Plus (p : ascii -> bool)
| Grp (n : nat) (r : regex).

Definition captures := list (nat * text).

Record match_obj : Type := MatchObj {
  m_groups : captures;   (* most recent capture first *)
  m_rest : text          (* the text after the match *)
}.

Fixpoint lookup (n : nat) (caps : captures) : option text :=
  match caps with
  | [] => None
  | (i, t) :: caps' => if i =? n then Some t else lookup n caps'
  end.

(** [m.group(n)]; [None] when the group took no part in the match. *)
Definition group (n : nat) (m : match_obj) : option text := lookup n (m_groups m).

Section Matcher.
Variable R : Type.

(** Zero or more characters of a class, longest first. *)
Fixpoint many_k (p : ascii -> bool) (s : text) (k : text -> option R) : option R :=
  match s with
  | c :: t =>
      if p c
      then match many_k p t k with
           | Some r => Some r
           | None => k s
           end
      else k s
  | [] => k s
  end.

Fixpoint match_k (r : regex) (s : text) (caps : captures)
         (k : text -> captures -> option R) : option R :=
  match r with
  | Chr c =>
      match s with
      | a :: t => if Ascii.eqb c a then k t caps else None
      | [] => None
      end
  | Cls p =>
      match s with
      | a :: t => if p a then k t caps else None
      | [] => None
      end
  | Cat r1 r2 => match_k r1 s caps (fun s1 caps1 => match_k r2 s1 caps1 k)
  | Alt r1 r2 =>
      match match_k r1 s caps k with
      | Some x => Some x
      | None => match_k r2 s caps k
      end
  | Opt r1 =>
      match match_k r1 s caps k with
      | Some x => Some x
      | None => k s caps
      end
  | Plus p =>
      match s with
      | a :: t => if p a then many_k p t (fun s1 => k s1 caps) else None
      | [] => None
      end
  | Grp n r1 =>
      match_k r1 s caps
        (fun s1 caps1 => k s1 ((n, firstn (List.length s - List.length s1) s) :: caps1))
  end.
End Matcher.

(** [re.match]: a match anchored at the start of [s]. *)
Definition re_match (r : regex) (s : text) : option match_obj :=
  match_k r s [] (fun rest caps => Some (MatchObj caps rest)).

(** [re.search]: the match at the leftmost position that has one. *)
Fixpoint re_search (r : regex) (s : text) : option match_obj :=
  match re_match r s with
  | Some m => Some m
  | None =>
      match s with
      | [] => None
      | _ :: t => re_search r t
      end
  end.

End Regex.
Export Regex.

(** ** Text Normalizer *)

Fixpoint digits_value (acc : Z) (ds : text) : Z :=
  match ds with
  | [] => acc
  | c :: t => digits_value (10 * acc + Z.of_nat (code c - 48)) t
  end.

Definition all_digits (ds : text) : bool :=
  match ds with
  | [] => false
  | _ => forallb is_digit ds
  end.

(** The rational a decimal numeral denotes: [ip.fp], negative when [neg]. *)
Definition decimal_value (neg : bool) (ip fp : text) : Q :=
  let scale := Z.pow 10 (Z.of_nat (List.length fp)) in
  let mag := (digits_value 0 ip * scale + digits_value 0 fp)%Z in
  Qred (Qmake (if neg then Z.opp mag else mag) (Z.to_pos scale)).

(** [float(t)] on plain decimal numerals (optional sign, digits, optional
    point and digits), the only texts the capture group of
    [extract_spread] can hold; the value is the exact rational, of which
    Python keeps the nearest double (so -0.0 and 0.0 are one value here).  Python's [float] also reads blanks,
    exponents and names such as [inf], which never reach it here; any text
    that is not a plain numeral is a [ValueError] in this model. *)
Definition py_float (t : text) : result Q :=
  let neg := match t with c :: _ => code c =? 45 | [] => false end in
  let body := match t with c :: t' => if is_sign c then t' else t | [] => [] end in
  let ip := take_while is_digit body in
  match drop_while is_digit body with
  | [] => if all_digits ip then Ok (decimal_value neg ip []) else Raise ValueError
  | c :: fp =>
      if (code c =? 46) && all_digits ip && all_digits fp
      then Ok (decimal_value neg ip fp)
      else Raise ValueError
  end.

(** [r"([-+]?\d+(\.\d+)?)"] *)
Definition spread_re : regex :=
  Grp 1 (Cat (Opt (Cls is_sign))
             (Cat (Plus is_digit)
                  (Opt (Grp 2 (Cat (Chr ".") (Plus is_digit)))))).

(** [r"\(([-+]?\d+)\)"] *)
Definition price_re : regex :=
  Cat (Chr "(") (Cat (Grp 1 (Cat (Opt (Cls is_sign)) (Plus is_digit))) (Chr ")")).

(** [extract_spread]: [float(None)] is a [TypeError], which the handler for
    [(ValueError, AttributeError)] lets through. *)
Definition extract_spread (value_str : text) : result Q :=
  match re_search spread_re value_str with
  | Some m =>
      match group 1 m with
      | Some g =>
          match py_float g with
          | Ok v => Ok v
          | Raise ValueError | Raise AttributeError => Ok 0%Q
          | Raise e => Raise e
          end
      | None => Raise TypeError
      end
  | None => Ok 0%Q
  end.

(** [extract_price]; a group that took no part would make it return
    [None], here the empty text (group 1 spans every match of the pattern,
    see [price_group_present]). *)
Definition extract_price (value_str : text) : text :=
  match re_search price_re value_str with
  | Some m =>
      match group 1 m with
      | Some g => g
      | None => []
      end
  | None => strip value_str
  end.

(** ** Dates *)

Record datetime : Type := DateTime {
  year : nat; month : nat; day : nat;
  hour : nat; minute : nat; second : nat
}.

Definition is_leap (y : nat) : bool :=
  (y mod 4 =? 0) && (negb (y mod 100 =? 0) || (y mod 400 =? 0)).

Definition days_in_month (y m : nat) : nat :=
  match m with
  | 1 | 3 | 5 | 7 | 8 | 10 | 12 => 31
  | 4 | 6 | 9 | 11 => 30
  | 2 => if is_leap y then 29 else 28
  | _ => 0
  end.

(** The values a Python [datetime] can hold (microseconds left out). *)
Definition valid_datetime (d : datetime) : bool :=
  (1 <=? year d) && (year d <? 10 * 1000) &&
  (1 <=? month d) && (month d <=? 12) &&
  (1 <=? day d) && (day d <=? days_in_month (year d) (month d)) &&
  (hour d <? 24) && (minute d <? 60) && (second d <? 60).

Definition digit (d : nat) : ascii := ascii_of_nat (48 + d).
Definition pad2 (n : nat) : text := [digit (n / 10); digit (n mod 10)].
Definition pad4 (n : nat) : text :=
  [digit (n / 1000); digit (n / 100 mod 10); digit (n / 10 mod 10); digit (n mod 10)].

(** [d.strftime("%H:%M:%S")] *)
Definition strftime_hms (d : datetime) : text :=
  pad2 (hour d) ++ ":" ++ pad2 (minute d) ++ ":" ++ pad2 (second d).

(** [d.strftime("%Y-%m-%dT%H:%M:%S+00:00")], the year on four digits as
    documented for [%Y]. *)
Definition strftime_iso (d : datetime) : text :=
  pad4 (year d) ++ "-" ++ pad2 (month d) ++ "-" ++ pad2 (day d) ++ "T" ++
  strftime_hms d ++ "+00:00".

Definition in_range (lo hi : nat) (c : ascii) : bool :=
  (lo <=? code c) && (code c <=? hi).

Definition d0_1 := Cls (in_range 48 49).
Definition d0_2 := Cls (in_range 48 50).
Definition d0_3 := Cls (in_range 48 51).
Definition d0_5 := Cls (in_range 48 53).
Definition d1_2 := Cls (in_range 49 50).
Definition d1_9 := Cls (in_range 49 57).
Definition d0_9 := Cls is_digit.

(** The pattern [_strptime] compiles for ["%m-%d-%Y %H:%M:%S"]: groups 1 to
    6 stand for its named groups m, d, Y, H, M, S; a blank of the format
    becomes [\s+]. *)
Definition strptime_re : regex :=
  Cat (Grp 1 (Alt (Cat (Chr "1") d0_2) (Alt (Cat (Chr "0") d1_9) d1_9)))
 (Cat (Chr "-")
 (Cat (Grp 2 (Alt (Cat (Chr "3") d0_1) (Alt (Cat d1_2 d0_9)
             (Alt (Cat (Chr "0") d1_9) (Alt d1_9 (Cat (Chr " ") d1_9))))))
 (Cat (Chr "-")
 (Cat (Grp 3 (Cat d0_9 (Cat d0_9 (Cat d0_9 d0_9))))
 (Cat (Plus is_space)
 (Cat (Grp 4 (Alt (Cat (Chr "2") d0_3) (Alt (Cat d0_1 d0_9) d0_9)))
 (Cat (Chr ":")
 (Cat (Grp 5 (Alt (Cat d0_5 d0_9) d0_9))
 (Cat (Chr ":")
      (Grp 6 (Alt (Cat (Chr "6") d0_1) (Alt (Cat d0_5 d0_9) d0_9)))))))))))).

(** [int(g)] of a captured field (blanks around the digits are ignored). *)
Definition int_of (g : option text) : nat :=
  match g with
  | Some t => Z.to_nat (digits_value 0 (strip t))
  | None => 0
  end.

(** [datetime.strptime(s, "%m-%d-%Y %H:%M:%S")]: the text has to match the
    pattern from its start, nothing may remain after the match, and the
    fields have to form a date; everything else is a [ValueError]. *)
Definition strptime (s : text) : result datetime :=
  match re_match strptime_re s with
  | None => Raise ValueError
  | Some m =>
      match m_rest m with
      | _ :: _ => Raise ValueError
      | [] =>
          let d := DateTime (int_of (group 3 m)) (int_of (group 1 m)) (int_of (group 2 m))
                            (int_of (group 4 m)) (int_of (group 5 m)) (int_of (group 6 m)) in
          if valid_datetime d then Ok d else Raise ValueError
      end
  end.

(** ** The page, as the driver shows it *)

(** The outcome of a [WebDriverWait(...).until(...)]. *)
Inductive wait (A : Type) : Type :=
| Visible (a : A)
| TimedOut.
Arguments Visible {A} a.
Arguments TimedOut {A}.

(** A game row, by what the row's lookups return: elements are given by
    their [text], the league link by its [href]. *)
Record Row : Type := MkRow {
  team_names : list text;        (* a.text-muted *)
  moneyline_prices : list text;  (* td:nth-child(2) span.text-muted *)
  spread_prices : list text;     (* td:nth-child(3) span.text-muted *)
  total_prices : list text;      (* td:nth-child(4) span.text-muted *)
  sport_elem : option text;      (* a[href*='betting-trends?f='] *)
  row_badge : option text        (* .//span[badge and badge-light], in the row *)
}.

Record Page : Type := MkPage {
  datepicker : wait (option text);  (* #datepicker and its value attribute *)
  game_rows : wait (list Row);
  final_badge : option text         (* first badge of the document with FINAL in its text *)
}.

Record Clock : Type := MkClock {
  now : datetime;     (* datetime.datetime.now() *)
  utcnow : datetime   (* datetime.datetime.utcnow() *)
}.

(** ** Records *)

Record Item : Type := MkItem {
  sport_league : text;
  event_date_utc : text;
  team1 : text;
  team2 : text;
  period : text;
  line_type : text;
  price : text;
  side : text;
  team : text;
  spread : Q;
  pitcher : text
}.

(** [Item(...)] with and without the tenth argument; [pitcher] keeps its default. *)
Definition new_Item (lg ed t1 t2 pd lt pr sd tm : text) (sp : Q) : Item :=
  MkItem lg ed t1 t2 pd lt pr sd tm sp "".
Definition new_Item9 (lg ed t1 t2 pd lt pr sd tm : text) : Item :=
  MkItem lg ed t1 t2 pd lt pr sd tm 0%Q "".

(** ** State and effects *)

Inductive log_record : Type :=
| WarnDateEmpty              (* Date field is empty, using the current date. *)
| WarnDateFailed             (* Failed to retrieve event date, using current date. *)
| WarnMissingData            (* Missing data in row. Skipping... *)
| WarnRowError (e : exn)     (* Error parsing row: e *)
| WarnPageTimeout            (* Timeout while loading the page. *)
| InfoSaved                  (* Data saved to ... *)
| InfoScraped (n : nat).     (* Successfully scraped n betting lines. *)

Record state : Type := MkState {
  driver : Page;                      (* self.driver: the page it shows *)
  clock : Clock;
  cached_event_date : option text;    (* self.cached_event_date *)
  items : list Item;                  (* the list parse_game_data fills *)
  log : list log_record
}.

Definition set_driver (p : Page) (c : Clock) (st : state) : state :=
  MkState p c (cached_event_date st) (items st) (log st).
Definition set_cached (d : text) (st : state) : state :=
  MkState (driver st) (clock st) (Some d) (items st) (log st).
Definition set_items (l : list Item) (st : state) : state :=
  MkState (driver st) (clock st) (cached_event_date st) l (log st).
Definition add_log (r : log_record) (st : state) : state :=
  MkState (driver st) (clock st) (cached_event_date st) (items st) (log st ++ [r]).

(** Computations: the state is kept when an exception is raised. *)
Definition M (A : Type) : Type := state -> state * result A.

Definition ret {A} (a : A) : M A := fun st => (st, Ok a).
Definition raise {A} (e : exn) : M A := fun st => (st, Raise e).
Definition bind {A B} (c : M A) (k : A -> M B) : M B :=
  fun st =>
    match c st with
    | (st', Ok a) => k a st'
    | (st', Raise e) => (st', Raise e)
    end.
Definition get : M state := fun st => (st, Ok st).
Definition modify (f : state -> state) : M unit := fun st => (f st, Ok tt).
Definition lift {A} (r : result A) : M A := fun st => (st, r).

(** [try: body except <handles> as e: handler e] *)
Definition try_except {A} (body : M A) (handles : exn -> bool) (handler : exn -> M A) : M A :=
  fun st =>
    match body st with
    | (st', Ok a) => (st', Ok a)
    | (st', Raise e) => if handles e then handler e st' else (st', Raise e)
    end.

Notation "x <- c ;; k" := (bind c (fun x => k))
  (at level 61, c at next level, right associativity).
Notation "c ;; k" := (bind c (fun _ => k))
  (at level 61, right associativity).

Definition logging (r : log_record) : M unit := modify (add_log r).

(** [l[i]] *)
Definition index (l : list text) (i : nat) : M text :=
  match nth_error l i with
  | Some x => ret x
  | None => raise IndexError
  end.

(** [find_element]: the element, or [NoSuchElementException]. *)
Definition find_element (e : option text) : M text :=
  match e with
  | Some x => ret x
  | None => raise NoSuchElementException
  end.

(** [WebDriverWait(...).until(...)]: the value, or [TimeoutException]. *)
Definition until {A} (w : wait A) : M A :=
  match w with
  | Visible a => ret a
  | TimedOut => raise TimeoutException
  end.

(** Python's truth value of [self.cached_event_date]. *)
Definition truthy (v : option text) : bool :=
  match v with
  | Some (_ :: _) => true
  | _ => false
  end.

(** ** Date Resolver *)

Definition get_event_date : M text :=
  st <- get ;;
  if truthy (cached_event_date st)
  then ret (match cached_event_date st with Some d => d | None => [] end)
  else
    try_except
      (raw_date <- until (datepicker (driver st)) ;;
       if negb (truthy raw_date)
       then (logging WarnDateEmpty ;;
             st1 <- get ;;
             let d := strftime_iso (utcnow (clock st1)) in
             modify (set_cached d) ;;
             ret d)
       else
         let raw := match raw_date with Some r => r | None => [] end in
         st1 <- get ;;
         let current_time := strftime_hms (now (clock st1)) in
         let raw_datetime := raw ++ " " ++ current_time in
         parsed_date <- lift (strptime raw_datetime) ;;
         let d := strftime_iso parsed_date in
         modify (set_cached d) ;;
         ret d)
      (fun e => exn_eqb e TimeoutException)
      (fun _ =>
         logging WarnDateFailed ;;
         st1 <- get ;;
         let d := strftime_iso (utcnow (clock st1)) in
         modify (set_cached d) ;;
         ret d).

(** ** Row Extractor *)

Definition append (it : Item) : M unit :=
  modify (fun st => set_items (items st ++ [it]) st).

Definition is_no_such_element (e : exn) : bool := exn_eqb e NoSuchElementException.

(** The league of a row: [sport_league = "UNKNOWN"], replaced when the link is found. *)
Definition row_sport_league (row : Row) : M text :=
  try_except
    (href <- find_element (sport_elem row) ;;
     ret (upper (last_piece (split "f=" href))))
    is_no_such_element
    (fun _ => ret ("UNKNOWN" : text)).

(** The period of a row: [period = "FULL GAME"], replaced when both lookups
    succeed.  The second lookup starts from [self.driver], not from the
    row, and its result replaces the row's badge (the [print] of its outer
    HTML is left out). *)
Definition row_period (row : Row) : M text :=
  try_except
    (_ <- find_element (row_badge row) ;;
     st <- get ;;
     period_elem <- find_element (final_badge (driver st)) ;;
     ret (strip period_elem))
    is_no_such_element
    (fun _ => ret ("FULL GAME" : text)).

Section Markets.
Variables (sport_league event_date_utc team1 team2 period : text).
Variable row : Row.

Definition mk (lt pr sd tm : text) (sp : Q) : Item :=
  new_Item sport_league event_date_utc team1 team2 period lt pr sd tm sp.

(** Moneyline bets *)
Definition moneyline_bets : M unit :=
  if 2 <=? List.length (moneyline_prices row)
  then
    (m1 <- index (moneyline_prices row) 1 ;;
     s1 <- index (spread_prices row) 1 ;;
     v1 <- lift (extract_spread s1) ;;
     append (mk "moneyline" (extract_price m1) team1 team1 v1) ;;
     m2 <- index (moneyline_prices row) 2 ;;
     s2 <- index (spread_prices row) 2 ;;
     v2 <- lift (extract_spread s2) ;;
     append (mk "moneyline" (extract_price m2) team2 team2 v2))
  else ret tt.

(** Draw bet (only for Soccer) *)
Definition draw_bet : M unit :=
  if contains "SOCCER" sport_league && (4 <=? List.length (moneyline_prices row))
  then
    (m3 <- index (moneyline_prices row) 3 ;;
     let draw_price := strip (replace ("DRAW" ++ [ascii_of_nat 10]) [] m3) in
     append (new_Item9 sport_league event_date_utc team1 team2 period
                       "moneyline" draw_price "draw" "draw"))
  else ret tt.

(** Spread bets *)
Definition spread_bets : M unit :=
  if 2 <=? List.length (spread_prices row)
  then
    (s1 <- index (spread_prices row) 1 ;;
     s1' <- index (spread_prices row) 1 ;;
     v1 <- lift (extract_spread s1') ;;
     append (mk "spread" (extract_price s1) team1 team1 v1) ;;
     s2 <- index (spread_prices row) 2 ;;
     s2' <- index (spread_prices row) 2 ;;
     v2 <- lift (extract_spread s2') ;;
     append (mk "spread" (extract_price s2) team2 team2 v2))
  else ret tt.

(** Over/Under bets *)
Definition over_under_bets : M unit :=
  if 2 <=? List.length (total_prices row)
  then
    (t1 <- index (total_prices row) 1 ;;
     s1 <- index (spread_prices row) 1 ;;
     v1 <- lift (extract_spread s1) ;;
     append (mk "over/under" (extract_price t1) "over" "total" v1) ;;
     t2 <- index (total_prices row) 2 ;;
     s2 <- index (spread_prices row) 2 ;;
     v2 <- lift (extract_spread s2) ;;
     append (mk "over/under" (extract_price t2) "under" "total" v2))
  else ret tt.
End Markets.

(** The body of the [try] of one iteration of [for row in game_rows]. *)
Definition row_body (event_date_utc : text) (row : Row) : M unit :=
  sport_league <- row_sport_league row ;;
  period <- row_period row ;;
  if (List.length (team_names row) <? 2) || (List.length (moneyline_prices row) <? 2)
  then logging WarnMissingData   (* continue *)
  else
    team1 <- index (team_names row) 0 ;;
    team2 <- index (team_names row) 1 ;;
    moneyline_bets sport_league event_date_utc team1 team2 period row ;;
    draw_bet sport_league event_date_utc team1 team2 period row ;;
    spread_bets sport_league event_date_utc team1 team2 period row ;;
    over_under_bets sport_league event_date_utc team1 team2 period row.

(** One iteration: [except Exception as e] logs and goes on. *)
Definition parse_row (event_date_utc : text) (row : Row) : M unit :=
  try_except (row_body event_date_utc row)
             (fun _ => true)
             (fun e => logging (WarnRowError e)).

Fixpoint for_rows (event_date_utc : text) (rows : list Row) : M unit :=
  match rows with
  | [] => ret tt
  | row :: rest => parse_row event_date_utc row ;; for_rows event_date_utc rest
  end.

(** ** Batch Orchestrator *)

Definition parse_game_data : M (list Item) :=
  modify (set_items []) ;;
  try_except
    (event_date_utc <- get_event_date ;;
     st <- get ;;
     rows <- until (game_rows (driver st)) ;;
     for_rows event_date_utc rows)
    (fun e => exn_eqb e TimeoutException)
    (fun _ => logging WarnPageTimeout) ;;
  st <- get ;;
  ret (items st).

(** What one turn of the main loop meets: the page [BASE_URL] serves and
    the clock readings of that turn. *)
Record World : Type := MkWorld {
  served : Page;
  at_time : Clock
}.

(** [scraper.driver.get(BASE_URL)] *)
Definition driver_get (w : World) : M unit :=
  modify (set_driver (served w) (at_time w)).

(** One turn of [while True]: the value is what is saved and printed. *)
Definition main_turn (w : World) : M (list Item) :=
  driver_get w ;;
  its <- parse_game_data ;;
  logging InfoSaved ;;
  logging (InfoScraped (List.length its)) ;;
  ret its.

(** The loop over the turns the world offers; an exception ends it. *)
Fixpoint main_loop (ws : list World) : M (list (list Item)) :=
  match ws with
  | [] => ret []
  | w :: rest =>
      its <- main_turn w ;;
      outs <- main_loop rest ;;
      ret (its :: outs)
  end.

(** [SportsScraper()]: no cached date yet. *)
Definition init (p : Page) (c : Clock) : state := MkState p c None [] [].

(** ** Settings and browser start-up *)

Module Startup.

(** The three variables the module reads with [os.getenv], [None] when a
    variable is not set. *)
Record Env : Type := MkEnv {
  env_BASE_URL : option text;
  env_MAX_RETRIES : option text;
  env_SCRAPE_INTERVAL : option text
}.

(** The module-level constants once the checks have passed. *)
Record Settings : Type := MkSettings {
  BASE_URL : text;
  MAX_RETRIES : Z;
  SCRAPE_INTERVAL : Z
}.

(** What start-up writes to the log, and the pauses it makes. *)
Inductive boot_record : Type :=
| ErrBaseUrl                         (* BASE_URL is not defined in .env *)
| WarnRetriesLow                     (* MAX_RETRIES is too low. Setting to 3 times. *)
| ErrRetries                         (* MAX_RETRIES must be a valid integer in .env *)
| WarnIntervalLow                    (* SCRAPE_INTERVAL is too low. Setting to 10 seconds. *)
| ErrInterval                        (* SCRAPE_INTERVAL must be a valid integer in .env *)
| InfoDriverUp                       (* WebDriver initialized in headless mode. *)
| ErrDriverAttempt (attempt : Z) (total : Z)
                                     (* Failed to initialize WebDriver (Attempt a/t) *)
| ErrDriverGaveUp                    (* All WebDriver initialization attempts failed. *)
| Sleep (seconds : Z).               (* time.sleep(seconds) *)

(** How a piece of start-up ends: with a value, with [sys.exit(code)], or
    with an exception nobody handles. *)
Inductive outcome (A : Type) : Type :=
| Done (a : A)
| SysExit (code : Z)
| Crashed (e : exn).
Arguments Done {A} a.
Arguments SysExit {A} code.
Arguments Crashed {A} e.

(** The digits of an integer literal, where single underscores may stand
    between digits: the value read so far, the number of digits read, and
    whether the previous character was a digit. *)
Fixpoint int_digits (acc : Z) (count : nat) (after_digit : bool) (s : text)
  : option (Z * nat) :=
  match s with
  | [] => if after_digit then Some (acc, count) else None
  | c :: t =>
      if is_digit c
      then int_digits (10 * acc + Z.of_nat (code c - 48)) (S count) true t
      else if Ascii.eqb c "_"
           then if after_digit then int_digits acc count false t else None
           else None
  end.

(** [sys.get_int_max_str_digits()], by default. *)
Definition int_max_str_digits : nat := 4300.

(** [int(t)] of a text: blanks around the literal are dropped, one sign
    may lead, the digits follow; anything else, and a literal of more
    digits than the interpreter converts, is a [ValueError]. *)
Definition py_int (t : text) : result Z :=
  let body := strip t in
  let neg := match body with c :: _ => code c =? 45 | [] => false end in
  let ds := match body with c :: t' => if is_sign c then t' else body | [] => [] end in
  match int_digits 0 0 false ds with
  | Some (n, count) =>
      if int_max_str_digits <? count then Raise ValueError
      else Ok (if neg then Z.opp n else n)
  | None => Raise ValueError
  end.

(** [int(v)] of what [os.getenv] returned: [int(None)] is a [TypeError]. *)
Definition int_of_env (v : option text) : result Z :=
  match v with
  | Some t => py_int t
  | None => Raise TypeError
  end.

(** [except (ValueError, TypeError)] *)
Definition is_value_or_type_error (e : exn) : bool :=
  exn_eqb e ValueError || exn_eqb e TypeError.

(** The checks the module runs when it is loaded, in their order: the
    log, and the settings or the way the module stopped. *)
Definition load_settings (env : Env) : list boot_record * outcome Settings :=
  if negb (truthy (env_BASE_URL env))
  then ([ErrBaseUrl], SysExit 1)
  else
    let base := match env_BASE_URL env with Some u => u | None => [] end in
    match int_of_env (env_MAX_RETRIES env) with
    | Raise e =>
        if is_value_or_type_error e then ([ErrRetries], SysExit 1) else ([], Crashed e)
    | Ok n =>
        let log1 := if (n <? 2)%Z then [WarnRetriesLow] else [] in
        let retries := if (n <? 2)%Z then 3%Z else n in
        match int_of_env (env_SCRAPE_INTERVAL env) with
        | Raise e =>
            if is_value_or_type_error e
            then (log1 ++ [ErrInterval], SysExit 1)
            else (log1, Crashed e)
        | Ok m =>
            let log2 := if (m <? 5)%Z then [WarnIntervalLow] else [] in
            let interval := if (m <? 5)%Z then 10%Z else m in
            (log1 ++ log2, Done (MkSettings base retries interval))
        end
    end.

(** [for attempt in range(...)] of [setup_driver]: [launch k] tells whether
    the [k]-th call of [webdriver.Firefox] returns a driver; [attempt] is
    the loop variable and [left] the number of turns still to come.  The
    value is the number of the call that gave the driver. *)
Fixpoint attempts (launch : nat -> bool) (total : Z) (attempt left : nat)
  : list boot_record * outcome nat :=
  match left with
  | O => ([ErrDriverGaveUp], SysExit 1)
  | S left' =>
      if launch attempt
      then ([InfoDriverUp], Done attempt)
      else
        let (log, out) := attempts launch total (S attempt) left' in
        (ErrDriverAttempt (Z.of_nat attempt + 1) total :: Sleep 10 :: log, out)
  end.

(** [setup_driver] with [MAX_RETRIES = max_retries]. *)
Definition setup_driver (launch : nat -> bool) (max_retries : Z)
  : list boot_record * outcome nat :=
  attempts launch max_retries 0 (Z.to_nat max_retries).

End Startup.
Export Startup.

(** * Vocabulary of the properties

    Nothing below is part of the program: these definitions name what the
    properties speak about. *)

(** ** The two patterns, read as scanners *)






(** ** Numerals *)



(** The value [extract_spread] returns. *)
Definition spread_of (value_str : text) : Q :=
  match extract_spread value_str with
  | Ok v => v
  | Raise _ => 0%Q
  end.






(** ** Rows *)

(** The state after [l] has been appended to the records. *)
Definition emit (l : list Item) (st : state) : state :=
  set_items (items st ++ l) st.

(** What the league lookup of a row amounts to. *)
Definition league_of (row : Row) : text :=
  match sport_elem row with
  | Some href => upper (last_piece (split "f=" href))
  | None => "UNKNOWN"
  end.

(** What the period lookups of a row amount to on a page. *)
Definition period_of (page : Page) (row : Row) : text :=
  match row_badge row, final_badge page with
  | Some _, Some t => strip t
  | _, _ => "FULL GAME"
  end.

(** The four market blocks of a row, in the order of the source. *)
Definition row_markets (lg ed t1 t2 pd : text) (row : Row) : M unit :=
  moneyline_bets lg ed t1 t2 pd row ;;
  draw_bet lg ed t1 t2 pd row ;;
  spread_bets lg ed t1 t2 pd row ;;
  over_under_bets lg ed t1 t2 pd row.

(** [st'] is [st] with more log records and more records, all in [P]. *)
Definition grows (P : Item -> Prop) (st st' : state) : Prop :=
  driver st' = driver st
  /\ clock st' = clock st
  /\ cached_event_date st' = cached_event_date st
  /\ exists k, items st' = items st ++ k /\ Forall P k.

(** A computation that only ever does that. *)
Definition keeps (P : Item -> Prop) {A} (c : M A) : Prop :=
  forall st, grows P st (fst (c st)).

(** ** Dates *)



(** The texts of the date control that make [get_event_date] fall back. *)
Definition falls_back (w : wait (option text)) : bool :=
  match w with
  | TimedOut => true
  | Visible v => negb (truthy v)
  end.

(** The warning logged on the way. *)
Definition fallback_warning (w : wait (option text)) : log_record :=
  match w with
  | TimedOut => WarnDateFailed
  | Visible _ => WarnDateEmpty
  end.



(** The date control cannot make [strptime] fail: the date is cached, or
    the control is missing or empty, or its value parses. *)
Definition date_readable (st : state) : bool :=
  truthy (cached_event_date st)
  || falls_back (datepicker (driver st))
  || match datepicker (driver st) with
     | Visible (Some raw) =>
         match strptime (raw ++ " " ++ strftime_hms (now (clock st))) with
         | Ok _ => true
         | Raise _ => false
         end
     | _ => false
     end.

(** The records a row's market blocks append when all lookups succeed. *)
Section Records.
Variables (lg ed t1 t2 pd : text).

Definition moneyline_records (m1 m2 s1 s2 : text) : list Item :=
  [ new_Item lg ed t1 t2 pd "moneyline" (extract_price m1) t1 t1 (spread_of s1);
    new_Item lg ed t1 t2 pd "moneyline" (extract_price m2) t2 t2 (spread_of s2) ].

Definition draw_record (m3 : text) : Item :=
  new_Item lg ed t1 t2 pd "moneyline"
           (strip (replace ("DRAW" ++ [ascii_of_nat 10]) [] m3)) "draw" "draw" 0%Q.

Definition spread_records (s1 s2 : text) : list Item :=
  [ new_Item lg ed t1 t2 pd "spread" (extract_price s1) t1 t1 (spread_of s1);
    new_Item lg ed t1 t2 pd "spread" (extract_price s2) t2 t2 (spread_of s2) ].

Definition over_under_records (o1 o2 s1 s2 : text) : list Item :=
  [ new_Item lg ed t1 t2 pd "over/under" (extract_price o1) "over" "total" (spread_of s1);
    new_Item lg ed t1 t2 pd "over/under" (extract_price o2) "under" "total" (spread_of s2) ].

End Records.

(** ** Start-up *)

(** The log of [count] failed launches in a row, the first being launch
    number [from]: an error and a pause of ten seconds for each. *)
Definition failed_launches (total : Z) (from count : nat) : list boot_record :=
  flat_map (fun i => [ErrDriverAttempt (Z.of_nat i + 1) total; Sleep 10]) (seq from count).

(** The seconds a start-up log spends asleep. *)
Fixpoint seconds_asleep (log : list boot_record) : Z :=
  match log with
  | [] => 0
  | Sleep n :: rest => (n + seconds_asleep rest)%Z
  | _ :: rest => seconds_asleep rest
  end.

(** ** A row on its own *)

(** [st] with the records [its] and the log records [lg] added. *)
Definition grow_by (its : list Item) (lg : list log_record) (st : state) : state :=
  MkState (driver st) (clock st) (cached_event_date st) (items st ++ its) (log st ++ lg).

(** A computation that only adds records and log records, and whose
    additions and result depend on the state through the page's FINAL
    badge alone. *)
Definition local_to_badge {A} (c : M A) : Prop :=
  forall badge, exists its lg r,
    forall st, final_badge (driver st) = badge -> c st = (grow_by its lg st, r).

(** A scraper that has produced nothing yet, on a page that shows nothing
    but the badge. *)
Definition bare (badge : option text) : state :=
  MkState (MkPage TimedOut TimedOut badge)
          (MkClock (DateTime 1970 1 1 0 0 0) (DateTime 1970 1 1 0 0 0))
          None [] [].

(** What a row contributes when it is processed on its own. *)
Definition row_items (ed : text) (badge : option text) (row : Row) : list Item :=
  items (fst (parse_row ed row (bare badge))).

(** What a row logs when it is processed on its own. *)
Definition row_log (ed : text) (badge : option text) (row : Row) : list log_record :=
  log (fst (parse_row ed row (bare badge))).

(** The records of a row with every column filled, in the order of the
    source; an entry a column lacks reads as the empty text. *)
Definition row_records (ed : text) (badge : option text) (row : Row) : list Item :=
  let lg := league_of row in
  let t1 := nth 0 (team_names row) [] in
  let t2 := nth 1 (team_names row) [] in
  let pd := period_of (driver (bare badge)) row in
  let m i := nth i (moneyline_prices row) [] in
  let s i := nth i (spread_prices row) [] in
  let o i := nth i (total_prices row) [] in
  moneyline_records lg ed t1 t2 pd (m 1) (m 2) (s 1) (s 2)
  ++ (if contains "SOCCER" lg && (4 <=? List.length (moneyline_prices row))
      then [draw_record lg ed t1 t2 pd (m 3)] else [])
  ++ spread_records lg ed t1 t2 pd (s 1) (s 2)
  ++ over_under_records lg ed t1 t2 pd (o 1) (o 2) (s 1) (s 2).

(** How many of them a row gets to, from the lengths of its columns. *)
Definition row_count (row : Row) : nat :=
  if (List.length (team_names row) <? 2) || (List.length (moneyline_prices row) <? 2)
     || (List.length (spread_prices row) <? 2)
  then 0
  else if (List.length (moneyline_prices row) <? 3) || (List.length (spread_prices row) <? 3)
  then 1
  else 4
       + (if contains "SOCCER" (league_of row) && (4 <=? List.length (moneyline_prices row))
          then 1 else 0)
       + match List.length (total_prices row) with
         | 0 | 1 => 0
         | 2 => 1
         | _ => 2
         end.

(** What a turn of the main loop saves once the date is [d]. *)
Definition turn_records (d : text) (w : World) : list Item :=
  match game_rows (served w) with
  | Visible rows => flat_map (row_items d (final_badge (served w))) rows
  | TimedOut => []
  end.

(** A lowercase ASCII letter, the characters [str.upper] changes here. *)
Definition is_lower (c : ascii) : bool := (97 <=? code c) && (code c <=? 122).

(** The forms a record can take. *)
Definition record_form (it : Item) : Prop :=
  pitcher it = []
  /\ ((line_type it = "moneyline" /\ side it = team it
       /\ (team it = team1 it \/ team it = team2 it
           \/ (team it = "draw" /\ spread it = 0%Q)))
      \/ (line_type it = "spread" /\ side it = team it
          /\ (team it = team1 it \/ team it = team2 it))
      \/ (line_type it = "over/under" /\ team it = "total"
          /\ (side it = "over" \/ side it = "under"))).

(** * Sample pages *)

Module Samples.

Definition nfl_link : text := "https://veri.bet/betting-trends?f=nfl".
Definition soccer_link : text := "https://veri.bet/betting-trends?f=soccer-epl".

(** Two teams, a header and two prices in the moneyline and spread columns. *)
Definition lions_bears : Row :=
  MkRow ["Lions" : text; "Bears" : text]
        ["ML" : text; "(-150)" : text; "(+130)" : text]
        ["SPREAD" : text; "-3.5 (-110)" : text; "+3.5 (-110)" : text]
        []
        (Some nfl_link) None.

(** The same game with a first-half badge of its own. *)
Definition lions_bears_1h : Row :=
  MkRow ["Lions" : text; "Bears" : text]
        ["ML" : text; "(-150)" : text; "(+130)" : text]
        ["SPREAD" : text; "-3.5 (-110)" : text; "+3.5 (-110)" : text]
        []
        (Some nfl_link) (Some ("1ST HALF" : text)).

(** A finished game: its badge reads FINAL. *)
Definition jets_bills_final : Row :=
  MkRow ["Jets" : text; "Bills" : text]
        ["ML" : text; "(+200)" : text; "(-240)" : text]
        ["SPREAD" : text; "+6 (-105)" : text; "-6 (-115)" : text]
        []
        (Some nfl_link) (Some ("FINAL" : text)).

(** A moneyline column that holds the header and one price only. *)
Definition one_price : Row :=
  MkRow ["Lions" : text; "Bears" : text]
        ["ML" : text; "(-150)" : text]
        ["SPREAD" : text; "-3.5 (-110)" : text; "+3.5 (-110)" : text]
        []
        (Some nfl_link) None.

(** A spread column that holds the header and one entry only. *)
Definition one_spread : Row :=
  MkRow ["Lions" : text; "Bears" : text]
        ["ML" : text; "(-150)" : text; "(+130)" : text]
        ["SPREAD" : text; "-3.5 (-110)" : text]
        []
        (Some nfl_link) None.

(** A total column that holds the header and one entry only. *)
Definition one_total : Row :=
  MkRow ["Lions" : text; "Bears" : text]
        ["ML" : text; "(-150)" : text; "(+130)" : text]
        ["SPREAD" : text; "-3.5 (-110)" : text; "+3.5 (-110)" : text]
        ["TOTAL" : text; "O 45.5 (-110)" : text]
        (Some nfl_link) None.

(** A row with one team name. *)
Definition one_team : Row :=
  MkRow ["Lions" : text]
        ["ML" : text; "(-150)" : text; "(+130)" : text]
        ["SPREAD" : text; "-3.5 (-110)" : text; "+3.5 (-110)" : text]
        []
        (Some nfl_link) None.

(** A soccer game with a draw price and a spread column. *)
Definition leeds_hull : Row :=
  MkRow ["Leeds" : text; "Hull" : text]
        ["ML" : text; "(+120)" : text; "(+210)" : text;
         ("DRAW" ++ [ascii_of_nat 10] ++ "+230 ")%list]
        ["SPREAD" : text; "-0.5 (-110)" : text; "+0.5 (-110)" : text]
        ["TOTAL" : text; "O 2.5 (-120)" : text; "U 2.5 (+100)" : text]
        (Some soccer_link) None.

(** The same soccer game on a page that shows no spread column for it. *)
Definition leeds_hull_no_spread : Row :=
  MkRow ["Leeds" : text; "Hull" : text]
        ["ML" : text; "(+120)" : text; "(+210)" : text;
         ("DRAW" ++ [ascii_of_nat 10] ++ "+230 ")%list]
        []
        []
        (Some soccer_link) None.

(** A soccer row that shows one team name only. *)
Definition leeds_alone : Row :=
  MkRow ["Leeds" : text]
        ["ML" : text; "(+120)" : text; "(+210)" : text;
         ("DRAW" ++ [ascii_of_nat 10] ++ "+230 ")%list]
        ["SPREAD" : text; "-0.5 (-110)" : text; "+0.5 (-110)" : text]
        []
        (Some soccer_link) None.



Definition morning : Clock :=
  MkClock (DateTime 2024 1 15 9 5 59) (DateTime 2024 1 15 14 5 59).
Definition next_morning : Clock :=
  MkClock (DateTime 2024 1 16 9 0 0) (DateTime 2024 1 16 14 0 0).

Definition page_of (date : wait (option text)) (rows : list Row) (badge : option text) : Page :=
  MkPage date (Visible rows) badge.

Definition jan15 : Page := page_of (Visible (Some ("01-15-2024" : text))) [lions_bears] None.
Definition jan16 : Page := page_of (Visible (Some ("01-16-2024" : text))) [lions_bears] None.

(** A page with a first-half game and a finished one. *)
Definition with_final : Page :=
  page_of (Visible (Some ("01-15-2024" : text))) [lions_bears_1h; jets_bills_final]
          (Some ("FINAL" : text)).

(** A page whose only badge is the first-half one. *)
Definition without_final : Page :=
  page_of (Visible (Some ("01-15-2024" : text))) [lions_bears_1h] None.

(** A page whose rows do not show up in time. *)
Definition rows_missing : Page :=
  MkPage (Visible (Some ("01-15-2024" : text))) TimedOut None.

(** An environment with both numbers below their floors. *)
Definition low_env : Env :=
  MkEnv (Some ("https://veri.bet/odds-picks" : text)) (Some ("1" : text))
        (Some (" 4 " : text)).

Definition start (p : Page) : state := init p morning.

Definition stamp : text := "2024-01-15T09:05:59+00:00".

End Samples.
Import Samples.

(** * Properties *)

#[local] Arguments Ascii.eqb : simpl never.
Unset Implicit Arguments.

(** ** Texts *)

Lemma starts_with_spec (p s : text) :
  starts_with p s = true <-> exists post, s = p ++ post.
Proof.
  revert s. induction p as [|a p IH]; intros s; simpl.
  - split; eauto.
  - destruct s as [|b s].
    + split; [discriminate|]. intros (post & H). discriminate.
    + destruct (Ascii.eqb_spec a b) as [->|N].
      * rewrite IH. split; intros (post & H); exists post; congruence.
      * split; [discriminate|]. intros (post & H). congruence.
Qed.

(** [contains] is the substring test. *)
Lemma contains_spec (sub s : text) :
  contains sub s = true <-> exists pre post, s = pre ++ sub ++ post.
Proof.
  induction s as [|c t IH]; simpl.
  - rewrite orb_false_r, starts_with_spec. split.
    + intros (post & H). exists [], post. exact H.
    + intros (pre & post & H). destruct pre; [eauto|discriminate].
  - rewrite orb_true_iff, starts_with_spec, IH. split.
    + intros [(post & H)|(pre & post & H)].
      * exists [], post. exact H.
      * exists (c :: pre), post. simpl. congruence.
    + intros (pre & post & H). destruct pre as [|a pre].
      * left. eauto.
      * right. exists pre, post. simpl in H. congruence.
Qed.



(** ** The matcher *)

Lemma many_k_inv (R : Type) (p : ascii -> bool) (s : text) (k : text -> option R) (x : R) :
  many_k p s k = Some x -> exists s1, k s1 = Some x.
Proof.
  induction s as [|c t IH]; simpl; intros H.
  - eauto.
  - destruct (p c); [|eauto].
    destruct (many_k p t k) eqn:E; [|eauto].
    inversion H; subst. auto.
Qed.

(** A result of the matcher is a result of its continuation. *)
Lemma match_k_inv (R : Type) (r : regex) :
  forall (s : text) (caps : captures) (k : text -> captures -> option R) (x : R),
    match_k r s caps k = Some x -> exists s1 caps1, k s1 caps1 = Some x.
Proof.
  induction r as [c|p|r1 IH1 r2 IH2|r1 IH1 r2 IH2|r1 IH1|p|n r1 IH1];
    intros s caps k x H; simpl in H.
  - destruct s as [|a t]; [discriminate|]. destruct (Ascii.eqb c a); [eauto|discriminate].
  - destruct s as [|a t]; [discriminate|]. destruct (p a); [eauto|discriminate].
  - apply IH1 in H. destruct H as (s1 & caps1 & H). apply IH2 in H. exact H.
  - destruct (match_k r1 s caps k) eqn:E.
    + inversion H; subst. eapply IH1; eauto.
    + eapply IH2; eauto.
  - destruct (match_k r1 s caps k) eqn:E.
    + inversion H; subst. eapply IH1; eauto.
    + eauto.
  - destruct s as [|a t]; [discriminate|]. destruct (p a); [|discriminate].
    apply many_k_inv in H. destruct H as (s1 & H). eauto.
  - apply IH1 in H. destruct H as (s1 & caps1 & H). eauto.
Qed.

(** A group that wraps the whole pattern takes part in every match. *)
Lemma outer_group_present (n : nat) (r : regex) (s : text) (m : match_obj) :
  re_match (Grp n r) s = Some m -> exists g, group n m = Some g.
Proof.
  unfold re_match. simpl. intros H.
  apply match_k_inv in H. destruct H as (s1 & caps1 & H).
  inversion H; subst. unfold group. simpl. rewrite Nat.eqb_refl. eauto.
Qed.


Lemma re_search_inv (r : regex) (s : text) (m : match_obj) :
  re_search r s = Some m -> exists u, re_match r u = Some m.
Proof.
  induction s as [|c t IH]; simpl.
  - destruct (re_match r []) eqn:E; [|discriminate].
    intros H; inversion H; subst. eauto.
  - destruct (re_match r (c :: t)) eqn:E; [|exact IH].
    intros H; inversion H; subst. eauto.
Qed.

Lemma spread_group_present (s : text) (m : match_obj) :
  re_search spread_re s = Some m -> exists g, group 1 m = Some g.
Proof.
  intros H. apply re_search_inv in H. destruct H as (u & H).
  unfold spread_re in H. eapply outer_group_present. exact H.
Qed.


(** *** Greedy repetition *)



(** *** Searching *)



(** *** Runs of a class *)










(** *** The spread pattern, read as a scanner *)






(** *** Signed decimal numerals *)








Lemma py_float_raises (t : text) (e : exn) : py_float t = Raise e -> e = ValueError.
Proof.
  unfold py_float.
  destruct (drop_while is_digit _) as [|c fp].
  - destruct (all_digits _); [discriminate|]. intros H; inversion H; reflexivity.
  - destruct (_ && _); [discriminate|]. intros H; inversion H; reflexivity.
Qed.

(** [extract_spread] raises nothing. *)
Lemma extract_spread_total (s : text) : extract_spread s = Ok (spread_of s).
Proof.
  unfold spread_of. unfold extract_spread.
  destruct (re_search spread_re s) as [m|] eqn:E; [|reflexivity].
  destruct (spread_group_present _ _ E) as (g & Hg). rewrite Hg.
  destruct (py_float g) as [v|e] eqn:F; [reflexivity|].
  apply py_float_raises in F. subst. reflexivity.
Qed.

(** ** [extract_spread] *)









(** ** [extract_price] *)












(** ** Running the row extractor *)

Lemma emit_nil (st : state) : emit [] st = st.
Proof. destruct st; unfold emit, set_items; simpl. now rewrite app_nil_r. Qed.

Lemma emit_emit (l1 l2 : list Item) (st : state) :
  emit l2 (emit l1 st) = emit (l1 ++ l2) st.
Proof. unfold emit, set_items; simpl. now rewrite app_assoc. Qed.

Lemma append_emit (it : Item) (st : state) : append it st = (emit [it] st, Ok tt).
Proof. reflexivity. Qed.

Lemma row_sport_league_eq (row : Row) (st : state) :
  row_sport_league row st = (st, Ok (league_of row)).
Proof.
  unfold row_sport_league, league_of, try_except, bind, find_element.
  destruct (sport_elem row); reflexivity.
Qed.

Lemma row_period_eq (row : Row) (st : state) :
  row_period row st = (st, Ok (period_of (driver st) row)).
Proof.
  unfold row_period, period_of, try_except, bind, find_element, get.
  destruct (row_badge row); simpl; [|reflexivity].
  destruct (final_badge (driver st)); reflexivity.
Qed.

Lemma bind_ok {A B} (c : M A) (k : A -> M B) (st st' : state) (a : A) :
  c st = (st', Ok a) -> bind c k st = k a st'.
Proof. unfold bind. now intros ->. Qed.

Lemma bind_raise {A B} (c : M A) (k : A -> M B) (st st' : state) (e : exn) :
  c st = (st', Raise e) -> bind c k st = (st', Raise e).
Proof. unfold bind. now intros ->. Qed.

Lemma try_except_ok {A} (body : M A) (handles : exn -> bool) (handler : exn -> M A)
      (st st' : state) (a : A) :
  body st = (st', Ok a) -> try_except body handles handler st = (st', Ok a).
Proof. unfold try_except. now intros ->. Qed.

Lemma try_except_handled {A} (body : M A) (handles : exn -> bool) (handler : exn -> M A)
      (st st' : state) (e : exn) :
  body st = (st', Raise e) -> handles e = true ->
  try_except body handles handler st = handler e st'.
Proof. unfold try_except. now intros -> ->. Qed.

Lemma try_except_unhandled {A} (body : M A) (handles : exn -> bool) (handler : exn -> M A)
      (st st' : state) (e : exn) :
  body st = (st', Raise e) -> handles e = false ->
  try_except body handles handler st = (st', Raise e).
Proof. unfold try_except. now intros -> ->. Qed.

Lemma index_ok (l : list text) (i : nat) (x : text) (st : state) :
  nth_error l i = Some x -> index l i st = (st, Ok x).
Proof. unfold index. now intros ->. Qed.

Lemma index_raise (l : list text) (i : nat) (st : state) :
  List.length l <= i -> index l i st = (st, Raise IndexError).
Proof. unfold index. intros H. apply nth_error_None in H. now rewrite H. Qed.

Lemma lift_spread (s : text) (st : state) :
  lift (extract_spread s) st = (st, Ok (spread_of s)).
Proof. unfold lift. now rewrite extract_spread_total. Qed.

Lemma leb_ge (n m : nat) : n <= m -> (n <=? m) = true.
Proof. apply Nat.leb_le. Qed.

Lemma leb_lt (n m : nat) : m < n -> (n <=? m) = false.
Proof. apply Nat.leb_gt. Qed.

(** Unfolds one step of a row computation whose lookups are known. *)
Ltac step :=
  first
    [ erewrite bind_ok by (first [ apply index_ok; reflexivity
                                 | apply lift_spread
                                 | apply append_emit ])
    | rewrite emit_emit ].

Section MarketRuns.
Variables (lg ed t1 t2 pd : text) (row : Row) (st : state).

Lemma moneyline_bets_run (m0 m1 m2 s0 s1 s2 : text) (ms ss : list text) :
  moneyline_prices row = m0 :: m1 :: m2 :: ms ->
  spread_prices row = s0 :: s1 :: s2 :: ss ->
  moneyline_bets lg ed t1 t2 pd row st
  = (emit (moneyline_records lg ed t1 t2 pd m1 m2 s1 s2) st, Ok tt).
Proof.
  intros Hm Hs. unfold moneyline_bets. rewrite Hm, Hs. cbn [Datatypes.length Nat.leb]. repeat step. rewrite append_emit, emit_emit. reflexivity.
Qed.

Lemma draw_bet_run_soccer (m0 m1 m2 m3 : text) (ms : list text) :
  contains "SOCCER" lg = true ->
  moneyline_prices row = m0 :: m1 :: m2 :: m3 :: ms ->
  draw_bet lg ed t1 t2 pd row st = (emit [draw_record lg ed t1 t2 pd m3] st, Ok tt).
Proof.
  intros Hc Hm. unfold draw_bet. rewrite Hc, Hm. cbn [Datatypes.length Nat.leb andb]. repeat step. reflexivity.
Qed.

Lemma draw_bet_run_skip :
  contains "SOCCER" lg && (4 <=? List.length (moneyline_prices row)) = false ->
  draw_bet lg ed t1 t2 pd row st = (st, Ok tt).
Proof. intros H. unfold draw_bet. rewrite H. reflexivity. Qed.

Lemma spread_bets_run (s0 s1 s2 : text) (ss : list text) :
  spread_prices row = s0 :: s1 :: s2 :: ss ->
  spread_bets lg ed t1 t2 pd row st = (emit (spread_records lg ed t1 t2 pd s1 s2) st, Ok tt).
Proof.
  intros Hs. unfold spread_bets. rewrite Hs. cbn [Datatypes.length Nat.leb]. repeat step. rewrite append_emit, emit_emit. reflexivity.
Qed.

Lemma over_under_bets_run (o0 o1 o2 s0 s1 s2 : text) (os ss : list text) :
  total_prices row = o0 :: o1 :: o2 :: os ->
  spread_prices row = s0 :: s1 :: s2 :: ss ->
  over_under_bets lg ed t1 t2 pd row st
  = (emit (over_under_records lg ed t1 t2 pd o1 o2 s1 s2) st, Ok tt).
Proof.
  intros Ho Hs. unfold over_under_bets. rewrite Ho, Hs. cbn [Datatypes.length Nat.leb]. repeat step. rewrite append_emit, emit_emit. reflexivity.
Qed.

Lemma over_under_bets_skip :
  List.length (total_prices row) < 2 ->
  over_under_bets lg ed t1 t2 pd row st = (st, Ok tt).
Proof. intros H. unfold over_under_bets. now rewrite (leb_lt _ _ H). Qed.
End MarketRuns.

(** Runs a row computation whose lists are known by their shape. *)
Ltac run :=
  repeat first
    [ erewrite bind_ok by (first [ apply index_ok; reflexivity
                                 | apply lift_spread
                                 | apply append_emit
                                 | apply row_sport_league_eq
                                 | apply row_period_eq ])
    | erewrite bind_raise by (apply index_raise; simpl; lia)
    | rewrite emit_emit
    | rewrite append_emit ].

(** ** A row that lacks teams or moneyline prices *)

Lemma row_body_short (ed : text) (row : Row) (st : state) :
  List.length (team_names row) < 2 \/ List.length (moneyline_prices row) < 2 ->
  row_body ed row st = (add_log WarnMissingData st, Ok tt).
Proof.
  intros H. unfold row_body. run.
  assert (C : (List.length (team_names row) <? 2)
              || (List.length (moneyline_prices row) <? 2) = true).
  { apply orb_true_iff. destruct H; [left | right]; now apply Nat.ltb_lt. }
  rewrite C. reflexivity.
Qed.

Lemma parse_row_of_body (ed : text) (row : Row) (st st' : state) (r : result unit) :
  row_body ed row st = (st', r) ->
  parse_row ed row st
  = match r with
    | Ok _ => (st', Ok tt)
    | Raise e => (add_log (WarnRowError e) st', Ok tt)
    end.
Proof.
  intros H. unfold parse_row, try_except. rewrite H.
  destruct r as [[]|e]; reflexivity.
Qed.

(** No row lets an exception out of its iteration. *)
Lemma parse_row_no_raise (ed : text) (row : Row) (st : state) :
  snd (parse_row ed row st) = Ok tt.
Proof.
  destruct (row_body ed row st) as [st' r] eqn:E.
  rewrite (parse_row_of_body _ _ _ _ _ E). destruct r; reflexivity.
Qed.

Lemma for_rows_cons (ed : text) (row : Row) (rest : list Row) (st : state) :
  for_rows ed (row :: rest) st = for_rows ed rest (fst (parse_row ed row st)).
Proof.
  simpl. unfold bind. pose proof (parse_row_no_raise ed row st) as H.
  destruct (parse_row ed row st) as [st' r]. simpl in *. now subst.
Qed.

(** C8: a row with fewer than two team names or fewer than two moneyline
    prices logs the missing-data warning, adds no record, raises nothing,
    and the loop goes on with the next row. *)
Theorem C8_short_row_is_skipped (ed : text) (row : Row) (rest : list Row) (st : state) :
  List.length (team_names row) < 2 \/ List.length (moneyline_prices row) < 2 ->
  row_body ed row st = (add_log WarnMissingData st, Ok tt)
  /\ parse_row ed row st = (add_log WarnMissingData st, Ok tt)
  /\ items (add_log WarnMissingData st) = items st
  /\ log (add_log WarnMissingData st) = log st ++ [WarnMissingData]
  /\ for_rows ed (row :: rest) st = for_rows ed rest (add_log WarnMissingData st).
Proof.
  intros H. pose proof (row_body_short ed row st H) as B.
  pose proof (parse_row_of_body _ _ _ _ _ B) as P. simpl in P.
  repeat split; auto.
  rewrite for_rows_cons, P. reflexivity.
Qed.

(** ** A row that passes the check *)

Section FailingRuns.
Variables (lg ed t1 t2 pd : text) (row : Row) (st : state).

Lemma moneyline_bets_raise_first :
  2 <= List.length (moneyline_prices row) ->
  List.length (spread_prices row) < 2 ->
  moneyline_bets lg ed t1 t2 pd row st = (st, Raise IndexError).
Proof.
  intros Hm Hs. unfold moneyline_bets. rewrite (leb_ge _ _ Hm).
  destruct (moneyline_prices row) as [|m0 [|m1 ms]]; simpl in Hm; try lia.
  run. reflexivity.
Qed.

Lemma moneyline_bets_raise_second (m0 m1 s0 s1 : text) (ms ss : list text) :
  moneyline_prices row = m0 :: m1 :: ms ->
  spread_prices row = s0 :: s1 :: ss ->
  ms = [] \/ ss = [] ->
  moneyline_bets lg ed t1 t2 pd row st
  = (emit [new_Item lg ed t1 t2 pd "moneyline" (extract_price m1) t1 t1 (spread_of s1)] st,
     Raise IndexError).
Proof.
  intros Hm Hs H. unfold moneyline_bets. rewrite Hm, Hs.
  cbn [Datatypes.length Nat.leb].
  destruct H; subst.
  - run. reflexivity.
  - destruct ms; run; reflexivity.
Qed.

Lemma spread_bets_skip :
  List.length (spread_prices row) < 2 ->
  spread_bets lg ed t1 t2 pd row st = (st, Ok tt).
Proof. intros H. unfold spread_bets. now rewrite (leb_lt _ _ H). Qed.

Lemma over_under_bets_raise (o0 o1 s0 s1 s2 : text) (ss : list text) :
  total_prices row = [o0; o1] ->
  spread_prices row = s0 :: s1 :: s2 :: ss ->
  over_under_bets lg ed t1 t2 pd row st
  = (emit [new_Item lg ed t1 t2 pd "over/under" (extract_price o1) "over" "total" (spread_of s1)] st,
     Raise IndexError).
Proof.
  intros Ho Hs. unfold over_under_bets. rewrite Ho, Hs.
  cbn [Datatypes.length Nat.leb]. run. reflexivity.
Qed.
End FailingRuns.

Lemma row_body_long (ed : text) (row : Row) (st : state) :
  2 <= List.length (team_names row) ->
  2 <= List.length (moneyline_prices row) ->
  row_body ed row st
  = row_markets (league_of row) ed (nth 0 (team_names row) []) (nth 1 (team_names row) [])
                (period_of (driver st) row) row st.
Proof.
  intros Ht Hm. unfold row_body. run.
  assert (C : (List.length (team_names row) <? 2)
              || (List.length (moneyline_prices row) <? 2) = false).
  { apply orb_false_iff. split; apply Nat.ltb_ge; assumption. }
  rewrite C.
  destruct (team_names row) as [|a [|b ts]]; simpl in Ht; try lia.
  run. reflexivity.
Qed.

Lemma draw_bet_run (lg ed t1 t2 pd : text) (row : Row) (st : state) :
  draw_bet lg ed t1 t2 pd row st
  = (emit (if contains "SOCCER" lg && (4 <=? List.length (moneyline_prices row))
           then [draw_record lg ed t1 t2 pd (nth 3 (moneyline_prices row) [])]
           else []) st, Ok tt).
Proof.
  destruct (contains "SOCCER" lg && (4 <=? List.length (moneyline_prices row))) eqn:C.
  - apply andb_true_iff in C. destruct C as [C1 C2]. apply Nat.leb_le in C2.
    destruct (moneyline_prices row) as [|m0 [|m1 [|m2 [|m3 ms]]]] eqn:E; simpl in C2; try lia.
    eapply draw_bet_run_soccer; eauto.
  - rewrite emit_nil. now apply draw_bet_run_skip.
Qed.

(** How a row that passes the check can end: the records it appended, and
    whether an [IndexError] stopped it. *)
Lemma row_body_outcome (ed : text) (row : Row) (st st' : state) (r : result unit) :
  2 <= List.length (team_names row) ->
  2 <= List.length (moneyline_prices row) ->
  row_body ed row st = (st', r) ->
  exists k, st' = emit k st /\
    ((r = Raise IndexError /\ k = [] /\ List.length (spread_prices row) < 2)
     \/ (r = Raise IndexError /\ List.length k = 1 /\
         2 <= List.length (spread_prices row) /\
         (List.length (moneyline_prices row) = 2 \/ List.length (spread_prices row) = 2))
     \/ (r = Raise IndexError /\ 5 <= List.length k /\
         3 <= List.length (moneyline_prices row) /\
         3 <= List.length (spread_prices row) /\ List.length (total_prices row) = 2)
     \/ (r = Ok tt /\ 4 <= List.length k /\
         3 <= List.length (moneyline_prices row) /\
         3 <= List.length (spread_prices row) /\ List.length (total_prices row) <> 2)).
Proof.
  intros Ht Hm H. rewrite (row_body_long ed row st Ht Hm) in H.
  unfold row_markets in H.
  set (lg := league_of row) in *.
  set (t1 := nth 0 (team_names row) []) in *.
  set (t2 := nth 1 (team_names row) []) in *.
  set (pd := period_of (driver st) row) in *.
  destruct (spread_prices row) as [|s0 [|s1 ss]] eqn:Es.
  1,2: erewrite bind_raise in H
         by (apply moneyline_bets_raise_first; [exact Hm | rewrite Es; simpl; lia]);
       inversion H; subst; exists []; rewrite emit_nil; split; [reflexivity|];
       left; simpl; repeat split; lia.
  destruct (moneyline_prices row) as [|m0 [|m1 ms]] eqn:Em; simpl in Hm; try lia.
  destruct ms as [|m2 ms]; [|destruct ss as [|s2 ss]].
  1,2: erewrite bind_raise in H
         by (eapply moneyline_bets_raise_second; [exact Em | exact Es | auto]);
       inversion H; subst; eexists; split; [reflexivity|];
       right; left; simpl; repeat split; auto; lia.
  erewrite bind_ok in H by (eapply moneyline_bets_run; [exact Em | exact Es]).
  erewrite bind_ok in H by apply draw_bet_run.
  erewrite bind_ok in H by (eapply spread_bets_run; exact Es).
  rewrite !emit_emit in H.
  destruct (total_prices row) as [|o0 [|o1 [|o2 os]]] eqn:Eo.
  1,2: rewrite over_under_bets_skip in H by (rewrite Eo; simpl; lia);
       inversion H; subst; eexists; split; [reflexivity|];
       right; right; right; simpl; rewrite ?length_app; simpl;
       repeat split; try lia; discriminate.
  - erewrite over_under_bets_raise in H by (first [exact Eo | exact Es]).
    rewrite emit_emit in H.
    inversion H; subst; eexists; split; [reflexivity|].
    right; right; left. simpl; rewrite ?length_app; simpl; repeat split; lia.
  - erewrite over_under_bets_run in H by (first [exact Eo | exact Es]).
    rewrite emit_emit in H.
    inversion H; subst; eexists; split; [reflexivity|].
    right; right; right. simpl; rewrite ?length_app; simpl; repeat split; try lia.
Qed.

Lemma row_body_raise_passed (ed : text) (row : Row) (st st' : state) (e : exn) :
  row_body ed row st = (st', Raise e) ->
  2 <= List.length (team_names row) /\ 2 <= List.length (moneyline_prices row).
Proof.
  intros H.
  destruct (le_lt_dec 2 (List.length (team_names row))) as [Ht|Ht];
    [destruct (le_lt_dec 2 (List.length (moneyline_prices row))) as [Hm|Hm]|].
  - auto.
  - rewrite row_body_short in H by auto. discriminate.
  - rewrite row_body_short in H by auto. discriminate.
Qed.

(** C1 (as amended): an exception raised while a row is processed is caught
    and logged as a warning, and the loop goes on with the next row; the
    records of earlier rows stay, and so do the records the row appended
    before the exception: the row adds no record exactly when the exception
    comes before its first record, which is when its spread column has
    fewer than two entries. *)
Theorem C1_row_exception_caught_records_kept
        (ed : text) (row : Row) (rest : list Row) (st st' : state) (e : exn) :
  row_body ed row st = (st', Raise e) ->
  parse_row ed row st = (add_log (WarnRowError e) st', Ok tt)
  /\ for_rows ed (row :: rest) st = for_rows ed rest (add_log (WarnRowError e) st')
  /\ exists k, st' = emit k st
       /\ items (add_log (WarnRowError e) st') = items st ++ k
       /\ (k = [] <-> List.length (spread_prices row) < 2).
Proof.
  intros H.
  pose proof (parse_row_of_body _ _ _ _ _ H) as P. simpl in P.
  split; [exact P|]. split; [rewrite for_rows_cons, P; reflexivity|].
  destruct (row_body_raise_passed _ _ _ _ _ H) as [Ht Hm].
  destruct (row_body_outcome _ _ _ _ _ Ht Hm H) as (k & -> & C).
  exists k. split; [reflexivity|]. split; [reflexivity|].
  destruct C as [(_ & -> & Hs)|[(_ & Hk & Hs & _)|[(_ & Hk & _ & Hs & _)|(Hr & _)]]].
  - tauto.
  - split; [intros ->; simpl in Hk; discriminate | lia].
  - split; [intros ->; simpl in Hk; lia | lia].
  - discriminate.
Qed.

(** C2 (as amended): for a row with at least two team names, at least
    three moneyline entries and at least three spread entries, whose total
    column does not hold exactly two entries, the moneyline block appends
    exactly 2 records, the draw block 1 record if the league contains
    SOCCER and a 4th moneyline entry exists and none otherwise, the spread
    block exactly 2 records, and the over/under block exactly 2 records
    when the total column has at least three entries and none when it has
    fewer than two; the row's records are these, in this order. *)
Theorem C2_records_per_market (ed : text) (row : Row) (st : state) :
  2 <= List.length (team_names row) ->
  3 <= List.length (moneyline_prices row) ->
  3 <= List.length (spread_prices row) ->
  List.length (total_prices row) <> 2 ->
  let lg := league_of row in
  let t1 := nth 0 (team_names row) [] in
  let t2 := nth 1 (team_names row) [] in
  let pd := period_of (driver st) row in
  exists ml dr sp ou,
    moneyline_bets lg ed t1 t2 pd row st = (emit ml st, Ok tt)
    /\ List.length ml = 2
    /\ draw_bet lg ed t1 t2 pd row (emit ml st) = (emit (ml ++ dr) st, Ok tt)
    /\ List.length dr
       = (if contains "SOCCER" lg && (4 <=? List.length (moneyline_prices row)) then 1 else 0)
    /\ spread_bets lg ed t1 t2 pd row (emit (ml ++ dr) st) = (emit (ml ++ dr ++ sp) st, Ok tt)
    /\ List.length sp = 2
    /\ over_under_bets lg ed t1 t2 pd row (emit (ml ++ dr ++ sp) st)
       = (emit (ml ++ dr ++ sp ++ ou) st, Ok tt)
    /\ List.length ou = (if 3 <=? List.length (total_prices row) then 2 else 0)
    /\ row_body ed row st = (emit (ml ++ dr ++ sp ++ ou) st, Ok tt)
    /\ Forall (fun it => line_type it = "moneyline") (ml ++ dr)
    /\ Forall (fun it => line_type it = "spread") sp
    /\ Forall (fun it => line_type it = "over/under") ou.
Proof.
  intros Ht Hm Hs Ho lg t1 t2 pd.
  destruct (moneyline_prices row) as [|m0 [|m1 [|m2 ms]]] eqn:Em; simpl in Hm; try lia.
  destruct (spread_prices row) as [|s0 [|s1 [|s2 ss]]] eqn:Es; simpl in Hs; try lia.
  pose (dr := if contains "SOCCER" lg && (4 <=? List.length (moneyline_prices row))
              then [draw_record lg ed t1 t2 pd (nth 3 (moneyline_prices row) [])]
              else []).
  pose (ou := match total_prices row with
              | _ :: o1 :: o2 :: _ => over_under_records lg ed t1 t2 pd o1 o2 s1 s2
              | _ => []
              end).
  assert (Hdr : forall st0, draw_bet lg ed t1 t2 pd row st0 = (emit dr st0, Ok tt))
    by (intros; apply draw_bet_run).
  assert (Hml : forall st0, moneyline_bets lg ed t1 t2 pd row st0
                            = (emit (moneyline_records lg ed t1 t2 pd m1 m2 s1 s2) st0, Ok tt))
    by (intros; eapply moneyline_bets_run; eauto).
  assert (Hsp : forall st0, spread_bets lg ed t1 t2 pd row st0
                            = (emit (spread_records lg ed t1 t2 pd s1 s2) st0, Ok tt))
    by (intros; eapply spread_bets_run; eauto).
  assert (Hou : forall st0, over_under_bets lg ed t1 t2 pd row st0 = (emit ou st0, Ok tt)).
  { intros st0. subst ou.
    destruct (total_prices row) as [|o0 [|o1 [|o2 os]]] eqn:Eo; simpl in Ho; try lia.
    - rewrite emit_nil. apply over_under_bets_skip. rewrite Eo. simpl. lia.
    - rewrite emit_nil. apply over_under_bets_skip. rewrite Eo. simpl. lia.
    - eapply over_under_bets_run; eauto. }
  exists (moneyline_records lg ed t1 t2 pd m1 m2 s1 s2), dr,
         (spread_records lg ed t1 t2 pd s1 s2), ou.
  rewrite <- Em.
  repeat split.
  - apply Hml.
  - rewrite Hdr, emit_emit. reflexivity.
  - subst dr. destruct (_ && _); reflexivity.
  - rewrite Hsp, emit_emit, <- app_assoc. reflexivity.
  - rewrite Hou, emit_emit, <- !app_assoc. reflexivity.
  - subst ou. destruct (total_prices row) as [|o0 [|o1 [|o2 os]]]; simpl in *; try reflexivity; lia.
  - rewrite row_body_long by (rewrite ?Em; simpl; lia).
    unfold row_markets. fold lg t1 t2 pd.
    erewrite bind_ok by apply Hml. erewrite bind_ok by apply Hdr.
    erewrite bind_ok by apply Hsp. rewrite Hou, !emit_emit, <- ?app_assoc. reflexivity.
  - apply Forall_app. split.
    + repeat constructor.
    + subst dr. destruct (_ && _); repeat constructor.
  - repeat constructor.
  - subst ou. destruct (total_prices row) as [|o0 [|o1 [|o2 os]]]; repeat constructor.
Qed.

(** C9 (as amended): for a row with at least two team names and at least
    three spread entries, a draw record is appended exactly when the league
    contains SOCCER and a 4th moneyline entry exists; it comes right after
    the two team moneyline records, has side and team "draw", spread 0.0,
    and as price the 4th moneyline text with the "DRAW\n" marker removed,
    trimmed; no other moneyline record follows.  Whatever the row, the draw
    block appends nothing when the league does not contain SOCCER. *)
Theorem C9_draw_record (ed : text) (row : Row) (st : state) :
  2 <= List.length (team_names row) ->
  3 <= List.length (spread_prices row) ->
  let lg := league_of row in
  let t1 := nth 0 (team_names row) [] in
  let t2 := nth 1 (team_names row) [] in
  let pd := period_of (driver st) row in
  let dr := if contains "SOCCER" lg && (4 <=? List.length (moneyline_prices row))
            then [MkItem lg ed t1 t2 pd "moneyline"
                         (strip (replace ("DRAW" ++ [ascii_of_nat 10]) []
                                         (nth 3 (moneyline_prices row) [])))
                         "draw" "draw" 0%Q ""]
            else [] in
  (exists ml rest rm,
     moneyline_bets lg ed t1 t2 pd row st = (emit ml st, rm)
     /\ List.length ml <= 2
     /\ (dr <> [] -> rm = Ok tt /\ List.length ml = 2)
     /\ (rm = Ok tt ->
         draw_bet lg ed t1 t2 pd row (emit ml st) = (emit (ml ++ dr) st, Ok tt))
     /\ items (fst (row_body ed row st)) = items st ++ ml ++ dr ++ rest
     /\ Forall (fun it => line_type it <> "moneyline") rest)
  /\ (contains "SOCCER" lg = false ->
      forall st0, draw_bet lg ed t1 t2 pd row st0 = (st0, Ok tt)).
Proof.
  intros Ht Hs lg t1 t2 pd dr. split.
  2:{ intros C st0. apply draw_bet_run_skip. now rewrite C. }
  destruct (spread_prices row) as [|s0 [|s1 [|s2 ss]]] eqn:Es; simpl in Hs; try lia.
  assert (Hdr : forall st0, draw_bet lg ed t1 t2 pd row st0 = (emit dr st0, Ok tt))
    by (intros st0; apply draw_bet_run).
  destruct (moneyline_prices row) as [|m0 [|m1 [|m2 ms]]] eqn:Em.
  1,2: exists [], [], (Ok tt); subst dr; cbn [Datatypes.length Nat.leb andb];
       rewrite andb_false_r; rewrite emit_nil;
       (split; [unfold moneyline_bets; rewrite Em; reflexivity|]);
       (split; [simpl; lia|]);
       (split; [intros N; congruence|]);
       (split; [intros _; rewrite draw_bet_run_skip;
                  [now rewrite emit_nil
                  | rewrite Em; cbn [Datatypes.length Nat.leb]; apply andb_false_r]|]);
       (split; [|constructor]);
       rewrite row_body_short by (right; rewrite Em; simpl; lia);
       simpl; now rewrite app_nil_r.
  - (* a header and one price: the block stops after its first record *)
    assert (Hml : moneyline_bets lg ed t1 t2 pd row st
                  = (emit [new_Item lg ed t1 t2 pd "moneyline" (extract_price m1) t1 t1
                                    (spread_of s1)] st, Raise IndexError))
      by (eapply moneyline_bets_raise_second; eauto).
    eexists [_], [], (Raise IndexError).
    subst dr. cbn [Datatypes.length Nat.leb andb]. rewrite andb_false_r.
    split; [exact Hml|]. split; [simpl; lia|].
    split; [intros N; congruence|]. split; [discriminate|]. split; [|constructor].
    rewrite row_body_long by (rewrite ?Em; simpl; lia).
    unfold row_markets. fold lg t1 t2 pd.
    erewrite bind_raise by exact Hml. reflexivity.
  - assert (Hml : forall st0, moneyline_bets lg ed t1 t2 pd row st0
                              = (emit (moneyline_records lg ed t1 t2 pd m1 m2 s1 s2) st0, Ok tt))
      by (intros; eapply moneyline_bets_run; eauto).
    assert (Hsp : forall st0, spread_bets lg ed t1 t2 pd row st0
                              = (emit (spread_records lg ed t1 t2 pd s1 s2) st0, Ok tt))
      by (intros; eapply spread_bets_run; eauto).
    assert (Hbody : exists rest r,
               row_body ed row st
               = (emit (moneyline_records lg ed t1 t2 pd m1 m2 s1 s2 ++ dr ++ rest) st, r)
               /\ Forall (fun it => line_type it <> "moneyline") rest).
    { rewrite row_body_long by (rewrite ?Em; simpl; lia).
      unfold row_markets. fold lg t1 t2 pd.
      erewrite bind_ok by apply Hml. erewrite bind_ok by apply Hdr.
      erewrite bind_ok by apply Hsp. rewrite !emit_emit.
      destruct (total_prices row) as [|o0 [|o1 [|o2 os]]] eqn:Eo.
      1,2: rewrite over_under_bets_skip by (rewrite Eo; simpl; lia);
           exists (spread_records lg ed t1 t2 pd s1 s2), (Ok tt);
           split; [reflexivity | repeat constructor; simpl; discriminate].
      - erewrite over_under_bets_raise by (first [exact Eo | exact Es]).
        rewrite emit_emit, <- !app_assoc.
        eexists (spread_records lg ed t1 t2 pd s1 s2 ++ [_]), (Raise IndexError).
        split; [reflexivity | repeat constructor; simpl; discriminate].
      - erewrite over_under_bets_run by (first [exact Eo | exact Es]).
        rewrite emit_emit, <- !app_assoc.
        exists (spread_records lg ed t1 t2 pd s1 s2
                ++ over_under_records lg ed t1 t2 pd o1 o2 s1 s2), (Ok tt).
        split; [reflexivity | repeat constructor; simpl; discriminate]. }
    destruct Hbody as (rest & r & Hbody & Frest).
    exists (moneyline_records lg ed t1 t2 pd m1 m2 s1 s2), rest, (Ok tt).
    split; [apply Hml|]. split; [simpl; lia|].
    split; [intros _; split; reflexivity|].
    split; [intros _; rewrite Hdr, emit_emit; reflexivity|].
    split; [|exact Frest].
    rewrite Hbody. reflexivity.
Qed.

(** ** League and period of a row *)


(** ** What a computation may change *)

Lemma grows_refl (P : Item -> Prop) (st : state) : grows P st st.
Proof. repeat split. exists []. now rewrite app_nil_r. Qed.

Lemma grows_trans (P : Item -> Prop) (a b c : state) :
  grows P a b -> grows P b c -> grows P a c.
Proof.
  intros (D1 & C1 & E1 & k1 & I1 & F1) (D2 & C2 & E2 & k2 & I2 & F2).
  repeat split; try congruence.
  exists (k1 ++ k2). split.
  - rewrite I2, I1. now rewrite app_assoc.
  - apply Forall_app. auto.
Qed.

Section Keeps.
Variable P : Item -> Prop.

Lemma keeps_ret {A} (a : A) : keeps P (ret a).
Proof. intros st. apply grows_refl. Qed.

Lemma keeps_raise {A} (e : exn) : keeps P (@raise A e).
Proof. intros st. apply grows_refl. Qed.

Lemma keeps_lift {A} (r : result A) : keeps P (lift r).
Proof. intros st. apply grows_refl. Qed.

Lemma keeps_get : keeps P get.
Proof. intros st. apply grows_refl. Qed.

Lemma keeps_index (l : list text) (i : nat) : keeps P (index l i).
Proof. unfold index. destruct (nth_error l i); [apply keeps_ret | apply keeps_raise]. Qed.

Lemma keeps_find_element (e : option text) : keeps P (find_element e).
Proof. destruct e; [apply keeps_ret | apply keeps_raise]. Qed.

Lemma keeps_logging (r : log_record) : keeps P (logging r).
Proof. intros st. repeat split. exists []. simpl. now rewrite app_nil_r. Qed.

Lemma keeps_append (it : Item) : P it -> keeps P (append it).
Proof. intros H st. repeat split. exists [it]. simpl. auto. Qed.

Lemma keeps_bind {A B} (c : M A) (k : A -> M B) :
  keeps P c -> (forall a, keeps P (k a)) -> keeps P (bind c k).
Proof.
  intros Hc Hk st. unfold bind. specialize (Hc st).
  destruct (c st) as [st' [a|e]]; simpl in *; [|exact Hc].
  eapply grows_trans; [exact Hc | apply Hk].
Qed.

Lemma keeps_try_except {A} (body : M A) (handles : exn -> bool) (handler : exn -> M A) :
  keeps P body -> (forall e, keeps P (handler e)) -> keeps P (try_except body handles handler).
Proof.
  intros Hb Hh st. unfold try_except. specialize (Hb st).
  destruct (body st) as [st' [a|e]]; simpl in *; [exact Hb|].
  destruct (handles e); [|exact Hb].
  eapply grows_trans; [exact Hb | apply Hh].
Qed.
End Keeps.

(** Proves [keeps] goals of computations built from the operations above. *)
Ltac keeps_tac :=
  repeat first
    [ apply keeps_bind; [|intros ?]
    | apply keeps_try_except; [|intros ?]
    | apply keeps_ret | apply keeps_raise | apply keeps_lift | apply keeps_get
    | apply keeps_index | apply keeps_find_element | apply keeps_logging
    | apply keeps_append
    | match goal with |- keeps _ (if ?b then _ else _) => destruct b end ].

(** Every record of a row holds the date the row was given. *)
Lemma row_body_keeps_date (ed : text) (row : Row) :
  keeps (fun it => event_date_utc it = ed) (row_body ed row).
Proof.
  unfold row_body, row_sport_league, row_period,
    moneyline_bets, draw_bet, spread_bets, over_under_bets.
  keeps_tac; reflexivity.
Qed.

Lemma parse_row_keeps_date (ed : text) (row : Row) :
  keeps (fun it => event_date_utc it = ed) (parse_row ed row).
Proof.
  unfold parse_row. apply keeps_try_except.
  - apply row_body_keeps_date.
  - intros e. apply keeps_logging.
Qed.

Lemma for_rows_keeps_date (ed : text) (rows : list Row) :
  keeps (fun it => event_date_utc it = ed) (for_rows ed rows).
Proof.
  induction rows as [|row rest IH]; simpl.
  - apply keeps_ret.
  - apply keeps_bind; [apply parse_row_keeps_date | intros _; exact IH].
Qed.

(** Every record of a row holds the league, date, teams and period the row
    was given. *)
Lemma row_markets_keeps (lg ed t1 t2 pd : text) (row : Row) :
  keeps (fun it => sport_league it = lg /\ event_date_utc it = ed
                   /\ team1 it = t1 /\ team2 it = t2 /\ period it = pd)
        (row_markets lg ed t1 t2 pd row).
Proof.
  unfold row_markets, moneyline_bets, draw_bet, spread_bets, over_under_bets.
  keeps_tac; repeat split.
Qed.

(** The period of a row's records is [period_of]: the text of the page's
    first FINAL badge when the row has a badge and the page has such a
    badge, FULL GAME otherwise; the text of the row's own badge plays no
    part. *)
Lemma row_records_period (ed : text) (row : Row) (st : state) :
  exists k,
    items (fst (parse_row ed row st)) = items st ++ k
    /\ Forall (fun it => period it = period_of (driver st) row) k.
Proof.
  destruct (row_body ed row st) as [st' r] eqn:B.
  rewrite (parse_row_of_body _ _ _ _ _ B).
  assert (G : exists k, items st' = items st ++ k
                        /\ Forall (fun it => period it = period_of (driver st) row) k).
  { destruct (le_lt_dec 2 (List.length (team_names row))) as [Ht|Ht];
      [destruct (le_lt_dec 2 (List.length (moneyline_prices row))) as [Hm|Hm]|].
    - rewrite (row_body_long ed row st Ht Hm) in B.
      pose proof (row_markets_keeps (league_of row) ed (nth 0 (team_names row) [])
                    (nth 1 (team_names row) []) (period_of (driver st) row) row st)
        as (_ & _ & _ & k & I & F).
      rewrite B in I. simpl in I. exists k. split; [exact I|].
      eapply Forall_impl; [|exact F]. intros it H. apply H.
    - rewrite row_body_short in B by auto. inversion B; subst.
      exists []. simpl. rewrite app_nil_r. auto.
    - rewrite row_body_short in B by auto. inversion B; subst.
      exists []. simpl. rewrite app_nil_r. auto. }
  destruct G as (k & I & F). exists k. split; [|exact F].
  destruct r; exact I.
Qed.

Lemma for_rows_no_raise (ed : text) (rows : list Row) (st : state) :
  snd (for_rows ed rows st) = Ok tt.
Proof.
  revert st. induction rows as [|row rest IH]; intros st.
  - reflexivity.
  - rewrite for_rows_cons. apply IH.
Qed.

(** ** Date Resolver *)





Lemma strptime_raises (s : text) (e : exn) : strptime s = Raise e -> e = ValueError.
Proof.
  unfold strptime. destruct (re_match strptime_re s) as [m|]; [|congruence].
  destruct (m_rest m); [|congruence].
  destruct (valid_datetime _); congruence.
Qed.

Lemma get_event_date_cached (st : state) (d : text) :
  cached_event_date st = Some d -> truthy (Some d) = true ->
  get_event_date st = (st, Ok d).
Proof.
  intros E T. unfold get_event_date, bind, get. simpl. rewrite E, T. reflexivity.
Qed.

Lemma get_event_date_fallback (st : state) :
  truthy (cached_event_date st) = false ->
  falls_back (datepicker (driver st)) = true ->
  let d := strftime_iso (utcnow (clock st)) in
  get_event_date st
  = (set_cached d (add_log (fallback_warning (datepicker (driver st))) st), Ok d).
Proof.
  intros T F d. unfold get_event_date, bind, get. simpl. rewrite T.
  unfold try_except, bind, until.
  destruct (datepicker (driver st)) as [v|]; simpl in *.
  - rewrite F. reflexivity.
  - reflexivity.
Qed.

Lemma get_event_date_parsed (st : state) (raw : text) :
  truthy (cached_event_date st) = false ->
  datepicker (driver st) = Visible (Some raw) ->
  truthy (Some raw) = true ->
  get_event_date st
  = match strptime (raw ++ " " ++ strftime_hms (now (clock st))) with
    | Ok p => (set_cached (strftime_iso p) st, Ok (strftime_iso p))
    | Raise e => (st, Raise e)
    end.
Proof.
  intros T E R. unfold get_event_date, bind, get. simpl. rewrite T.
  unfold try_except, bind, until. rewrite E. simpl in R |- *. rewrite R. simpl.
  unfold lift.
  destruct (strptime _) as [p|e] eqn:S; [reflexivity|].
  apply strptime_raises in S. subst. reflexivity.
Qed.

(** A successful call leaves its value in the cache, and the value is not
    the empty text. *)
Lemma get_event_date_caches (st st' : state) (d : text) :
  get_event_date st = (st', Ok d) ->
  cached_event_date st' = Some d /\ truthy (Some d) = true.
Proof.
  intros H.
  destruct (truthy (cached_event_date st)) eqn:T.
  - destruct (cached_event_date st) as [c|] eqn:E; [|discriminate].
    rewrite (get_event_date_cached st _ E T) in H. inversion H; subst. auto.
  - destruct (falls_back (datepicker (driver st))) eqn:F.
    + rewrite (get_event_date_fallback st T F) in H. inversion H; subst. auto.
    + destruct (datepicker (driver st)) as [[raw|]|] eqn:E; try discriminate.
      assert (R : truthy (Some raw) = true) by (simpl in F; now apply negb_false_iff in F).
      rewrite (get_event_date_parsed st _ T E R) in H.
      destruct (strptime _) as [p|e]; inversion H; subst. auto.
Qed.

(** [get_event_date] touches the cache and the log only. *)
Lemma get_event_date_frame (st : state) :
  driver (fst (get_event_date st)) = driver st
  /\ clock (fst (get_event_date st)) = clock st
  /\ items (fst (get_event_date st)) = items st.
Proof.
  destruct (truthy (cached_event_date st)) eqn:T.
  - destruct (cached_event_date st) as [c|] eqn:E; [|discriminate].
    rewrite (get_event_date_cached st _ E T). auto.
  - destruct (falls_back (datepicker (driver st))) eqn:F.
    + rewrite (get_event_date_fallback st T F). auto.
    + destruct (datepicker (driver st)) as [[raw|]|] eqn:E; try discriminate.
      assert (R : truthy (Some raw) = true) by (simpl in F; now apply negb_false_iff in F).
      rewrite (get_event_date_parsed st _ T E R).
      destruct (strptime _) as [p|e]; auto.
Qed.

Lemma get_event_date_raises (st st' : state) (e : exn) :
  get_event_date st = (st', Raise e) -> e = ValueError.
Proof.
  destruct (truthy (cached_event_date st)) eqn:T.
  - destruct (cached_event_date st) as [c|] eqn:E; [|discriminate].
    rewrite (get_event_date_cached st _ E T). discriminate.
  - destruct (falls_back (datepicker (driver st))) eqn:F.
    + rewrite (get_event_date_fallback st T F). discriminate.
    + destruct (datepicker (driver st)) as [[raw|]|] eqn:E; try discriminate.
      assert (R : truthy (Some raw) = true) by (simpl in F; now apply negb_false_iff in F).
      rewrite (get_event_date_parsed st _ T E R).
      destruct (strptime _) as [p|e'] eqn:S; [discriminate|].
      intros H. inversion H; subst. eapply strptime_raises; eauto.
Qed.

(** ** Batch Orchestrator *)

(** A cycle whose date resolves returns records that all hold that date,
    and leaves the cache as the resolver left it. *)
Lemma parse_game_data_ok (st st1 : state) (d : text) :
  get_event_date (set_items [] st) = (st1, Ok d) ->
  exists st2 its,
    parse_game_data st = (st2, Ok its)
    /\ Forall (fun it => event_date_utc it = d) its
    /\ cached_event_date st2 = cached_event_date st1.
Proof.
  intros H.
  pose proof (get_event_date_frame (set_items [] st)) as (_ & _ & I).
  rewrite H in I. simpl in I.
  unfold parse_game_data.
  erewrite bind_ok by reflexivity.
  destruct (game_rows (driver st1)) as [rows|] eqn:G.
  - pose proof (for_rows_no_raise d rows st1) as N.
    pose proof (for_rows_keeps_date d rows st1) as (_ & _ & C & k & Ik & Fk).
    destruct (for_rows d rows st1) as [st2 r] eqn:F. simpl in *. subst r.
    erewrite bind_ok.
    2:{ apply try_except_ok. erewrite (bind_ok _ _ _ _ _ H).
        erewrite bind_ok by reflexivity. rewrite G. erewrite bind_ok by reflexivity.
        exact F. }
    exists st2, (items st2). split; [reflexivity|]. split; [|exact C].
    rewrite Ik, I. exact Fk.
  - erewrite bind_ok.
    2:{ unfold try_except.
        erewrite (bind_ok _ _ _ _ _ H). erewrite bind_ok by reflexivity. rewrite G.
        erewrite bind_raise by reflexivity. simpl. reflexivity. }
    exists (add_log WarnPageTimeout st1), [].
    split; [|split; [constructor | reflexivity]].
    unfold bind, get, ret. cbn [add_log items]. now rewrite I.
Qed.

Lemma parse_game_data_raise (st st1 : state) (e : exn) :
  get_event_date (set_items [] st) = (st1, Raise e) ->
  parse_game_data st = (st1, Raise ValueError).
Proof.
  intros H. pose proof (get_event_date_raises _ _ _ H). subst e.
  unfold parse_game_data.
  erewrite bind_ok by reflexivity.
  erewrite bind_raise; [reflexivity|].
  apply try_except_unhandled; [|reflexivity].
  erewrite (bind_raise _ _ _ _ _ H). reflexivity.
Qed.


(** C5 (as amended): the first call of the date resolver computes the
    value and caches it, and every later call returns the cached value,
    in the same cycle and in every later one: a page navigation leaves the
    cache as it is, so every record of every later turn of the main loop
    holds the date resolved first. *)
Theorem C5_cached_date_outlives_navigation (st st1 : state) (d : text) :
  get_event_date st = (st1, Ok d) ->
  cached_event_date st1 = Some d
  /\ (forall st2, cached_event_date st2 = Some d -> get_event_date st2 = (st2, Ok d))
  /\ (forall w, cached_event_date (fst (driver_get w st1)) = Some d)
  /\ (forall ws, exists st3 outs,
        main_loop ws st1 = (st3, Ok outs)
        /\ cached_event_date st3 = Some d
        /\ List.length outs = List.length ws
        /\ Forall (Forall (fun it => event_date_utc it = d)) outs).
Proof.
  intros H. destruct (get_event_date_caches _ _ _ H) as [E T].
  split; [exact E|]. split; [|split].
  - intros st2 E2. now apply get_event_date_cached.
  - intros w. exact E.
  - intros ws. clear H. revert st1 E.
    induction ws as [|w rest IH]; intros st1 E.
    + exists st1, []. repeat split; auto.
    + assert (G : get_event_date (set_items [] (fst (driver_get w st1)))
                  = (set_items [] (fst (driver_get w st1)), Ok d))
        by (apply get_event_date_cached; [exact E | exact T]).
      destruct (parse_game_data_ok _ _ _ G) as (st2 & its & P & F & C).
      simpl in C.
      destruct (IH (add_log (InfoScraped (List.length its)) (add_log InfoSaved st2)))
        as (st3 & outs & L & C3 & Ln & Fo).
      { simpl. congruence. }
      exists st3, (its :: outs).
      split; [|repeat split; simpl; auto].
      cbn [main_loop]. unfold main_turn.
      erewrite bind_ok.
      2:{ erewrite bind_ok by reflexivity. erewrite (bind_ok _ _ _ _ _ P).
          erewrite bind_ok by reflexivity. erewrite bind_ok by reflexivity.
          reflexivity. }
      erewrite (bind_ok _ _ _ _ _ L). reflexivity.
Qed.

(** * The claims on the sample pages *)

(** C1, as first stated (a row that raises adds no record), fails: the row
    whose moneyline column has a header and one price passes the check,
    appends the first moneyline record, then raises [IndexError] on the
    missing second price; the record stays in the returned list. *)
Lemma C1_partial_record_remains :
  2 <= List.length (team_names one_price)
  /\ 2 <= List.length (moneyline_prices one_price)
  /\ snd (row_body stamp one_price (start jan15)) = Raise IndexError
  /\ items (start jan15) = []
  /\ List.length (items (fst (parse_row stamp one_price (start jan15)))) = 1
  /\ exists it st,
       parse_game_data (start (page_of TimedOut [one_price] None)) = (st, Ok [it])
       /\ price it = "-150" /\ side it = "Lions".
Proof.
  repeat split; try (simpl; lia).
  eexists _, _. vm_compute. repeat split.
Qed.

(** The theorem of C1 on that row. *)
Lemma C1_witness :
  row_body stamp one_price (start jan15)
  = (fst (row_body stamp one_price (start jan15)), Raise IndexError)
  /\ parse_row stamp one_price (start jan15)
     = (add_log (WarnRowError IndexError) (fst (row_body stamp one_price (start jan15))), Ok tt).
Proof.
  assert (H : row_body stamp one_price (start jan15)
              = (fst (row_body stamp one_price (start jan15)), Raise IndexError))
    by (vm_compute; reflexivity).
  split; [exact H|].
  exact (proj1 (C1_row_exception_caught_records_kept stamp one_price [] (start jan15) _ _ H)).
Defined.

(** C2, as first stated, fails on rows that pass the check: with a header
    and one price in the moneyline column the moneyline block appends one
    record and raises; with a header and one entry in the spread column
    (two entries) it does the same and no spread record follows; with a
    header and one entry in the total column (two entries) the over/under
    block appends one record and raises. *)
Lemma C2_two_entries_one_record :
  (2 <= List.length (team_names one_price)
   /\ 2 <= List.length (moneyline_prices one_price)
   /\ exists it,
        moneyline_bets "NFL" stamp "Lions" "Bears" "FULL GAME" one_price (start jan15)
        = (emit [it] (start jan15), Raise IndexError))
  /\ (2 <= List.length (team_names one_spread)
      /\ 2 <= List.length (moneyline_prices one_spread)
      /\ 2 <= List.length (spread_prices one_spread)
      /\ exists it,
           moneyline_bets "NFL" stamp "Lions" "Bears" "FULL GAME" one_spread (start jan15)
           = (emit [it] (start jan15), Raise IndexError)
           /\ row_body stamp one_spread (start jan15)
              = (emit [it] (start jan15), Raise IndexError)
           /\ line_type it = "moneyline")
  /\ (2 <= List.length (team_names one_total)
      /\ 2 <= List.length (moneyline_prices one_total)
      /\ 2 <= List.length (total_prices one_total)
      /\ exists it,
           over_under_bets "NFL" stamp "Lions" "Bears" "FULL GAME" one_total (start jan15)
           = (emit [it] (start jan15), Raise IndexError)).
Proof.
  repeat split; try (simpl; lia).
  - eexists. vm_compute. reflexivity.
  - eexists. vm_compute. repeat split.
  - eexists. vm_compute. reflexivity.
Qed.

(** The theorem of C2 on the Lions and Bears row: four records. *)
Lemma C2_witness :
  exists its,
    row_body stamp lions_bears (start jan15) = (emit its (start jan15), Ok tt)
    /\ List.length its = 4.
Proof.
  destruct (C2_records_per_market stamp lions_bears (start jan15))
    as (ml & dr & sp & ou & _ & L1 & _ & L2 & _ & L3 & _ & L4 & B & _);
    try (simpl; lia).
  exists (ml ++ dr ++ sp ++ ou). split; [exact B|].
  rewrite !length_app, L1, L2, L3, L4. reflexivity.
Defined.

(** C3 on the code: the period of a row's records is not the text of the
    row's badge.  It is the text of the first FINAL badge of the whole page
    when the row has a badge and the page has such a badge, and FULL GAME
    otherwise.  On a page with a finished game the records of the
    first-half game read FINAL; on a page without one they read FULL GAME
    although the row has a badge. *)
Theorem C3_period_not_from_row_badge :
  (forall ed row st,
     exists k,
       items (fst (parse_row ed row st)) = items st ++ k
       /\ Forall (fun it => period it
                            = match row_badge row, final_badge (driver st) with
                              | Some _, Some t => strip t
                              | _, _ => "FULL GAME"
                              end) k)
  /\ row_badge lions_bears_1h = Some ("1ST HALF" : text)
  /\ (exists st its,
        parse_game_data (start with_final) = (st, Ok its)
        /\ map period its
           = ["FINAL" : text; "FINAL" : text; "FINAL" : text; "FINAL" : text;
              "FINAL" : text; "FINAL" : text; "FINAL" : text; "FINAL" : text]
        /\ map team1 its
           = ["Lions" : text; "Lions" : text; "Lions" : text; "Lions" : text;
              "Jets" : text; "Jets" : text; "Jets" : text; "Jets" : text])
  /\ (exists st its,
        parse_game_data (start without_final) = (st, Ok its)
        /\ map period its
           = ["FULL GAME" : text; "FULL GAME" : text; "FULL GAME" : text; "FULL GAME" : text]).
Proof.
  split; [exact row_records_period|].
  split; [reflexivity|]. split; eexists _, _; vm_compute; repeat split.
Qed.



(** C5, as first stated (the cache is emptied by each navigation), fails:
    after a turn on the page of 15 January the loop navigates to the page
    of 16 January; the cache still holds the first date, the resolver
    returns it, and the records of the second turn are stamped with it,
    while a scraper started on the second page resolves 16 January. *)
Lemma C5_cache_survives_navigation :
  let st1 := fst (main_turn (MkWorld jan15 morning) (start jan15)) in
  let st2 := fst (driver_get (MkWorld jan16 next_morning) st1) in
  driver st2 = jan16
  /\ cached_event_date st2 = Some stamp
  /\ get_event_date st2 = (st2, Ok stamp)
  /\ snd (get_event_date (init jan16 next_morning))
     = Ok ("2024-01-16T09:00:00+00:00" : text)
  /\ exists st outs,
       main_loop [MkWorld jan15 morning; MkWorld jan16 next_morning] (start jan15)
       = (st, Ok outs)
       /\ map (map event_date_utc) outs
          = [[stamp; stamp; stamp; stamp]; [stamp; stamp; stamp; stamp]].
Proof.
  repeat split; try (vm_compute; reflexivity).
  eexists _, _. vm_compute. repeat split.
Qed.

(** The theorem of C5 after the first call on the page of 15 January. *)
Lemma C5_witness :
  get_event_date (start jan15) = (set_cached stamp (start jan15), Ok stamp)
  /\ forall w, cached_event_date (fst (driver_get w (set_cached stamp (start jan15))))
               = Some stamp.
Proof.
  assert (H : get_event_date (start jan15) = (set_cached stamp (start jan15), Ok stamp))
    by (vm_compute; reflexivity).
  split; [exact H|].
  exact (proj1 (proj2 (proj2
           (C5_cached_date_outlives_navigation (start jan15) _ _ H)))).
Defined.

(** The theorem of C8 on the row with one team name. *)
Lemma C8_witness :
  List.length (team_names one_team) < 2
  /\ parse_row stamp one_team (start jan15) = (add_log WarnMissingData (start jan15), Ok tt)
  /\ items (add_log WarnMissingData (start jan15)) = [].
Proof.
  assert (H : List.length (team_names one_team) < 2) by (simpl; lia).
  split; [exact H|].
  destruct (C8_short_row_is_skipped stamp one_team [] (start jan15) (or_introl H))
    as (_ & P & I & _).
  split; [exact P | exact I].
Defined.

(** C9, as first stated (a draw record exactly when the league contains
    SOCCER and a 4th moneyline entry exists), fails: a soccer row with
    four moneyline entries and an empty spread column raises on the first
    moneyline record and adds no record at all; a soccer row with four
    moneyline entries and one team name is skipped by the check. *)
Lemma C9_soccer_row_without_draw :
  (contains "SOCCER" (league_of leeds_hull_no_spread) = true
   /\ 4 <= List.length (moneyline_prices leeds_hull_no_spread)
   /\ 2 <= List.length (team_names leeds_hull_no_spread)
   /\ parse_row stamp leeds_hull_no_spread (start jan15)
      = (add_log (WarnRowError IndexError) (start jan15), Ok tt)
   /\ items (add_log (WarnRowError IndexError) (start jan15)) = [])
  /\ (contains "SOCCER" (league_of leeds_alone) = true
      /\ 4 <= List.length (moneyline_prices leeds_alone)
      /\ parse_row stamp leeds_alone (start jan15)
         = (add_log WarnMissingData (start jan15), Ok tt)
      /\ items (add_log WarnMissingData (start jan15)) = []).
Proof. repeat split; try (simpl; lia); vm_compute; reflexivity. Qed.

(** The theorem of C9 on the soccer row with a spread column: the draw
    record is the third record. *)
Lemma C9_witness :
  exists ml rest,
    items (fst (row_body stamp leeds_hull (start jan15)))
    = ml ++ [MkItem "SOCCER-EPL" stamp "Leeds" "Hull" "FULL GAME" "moneyline"
                    "+230" "draw" "draw" 0%Q ""] ++ rest
    /\ List.length ml = 2.
Proof.
  destruct (proj1 (C9_draw_record stamp leeds_hull (start jan15)
                     ltac:(simpl; lia) ltac:(simpl; lia)))
    as (ml & rest & rm & _ & _ & D & _ & I & _).
  exists ml, rest. split; [exact I|].
  apply D. discriminate.
Defined.



(** * Further properties of the program *)

(** ** Settings *)

Lemma int_of_env_raises (v : option text) (e : exn) :
  int_of_env v = Raise e -> is_value_or_type_error e = true.
Proof.
  destruct v as [t|]; simpl.
  - unfold py_int. destruct (int_digits 0 0 false _) as [[n c]|].
    + destruct (int_max_str_digits <? c); [|discriminate].
      intros H; inversion H; reflexivity.
    + intros H; inversion H; reflexivity.
  - intros H; inversion H; reflexivity.
Qed.

(** X1: when the module loads, BASE_URL is the non-empty value of the
    environment, MAX_RETRIES is the integer read from the environment, or
    3 when that integer is below 2, and SCRAPE_INTERVAL is the integer
    read, or 10 when that integer is below 5; so MAX_RETRIES is at least 2
    and SCRAPE_INTERVAL at least 5, and a warning is logged exactly for
    each value that was replaced. *)
Theorem X1_settings_floors (env : Env) (log : list boot_record) (cfg : Settings) :
  load_settings env = (log, Done cfg) ->
  exists n m,
    int_of_env (env_MAX_RETRIES env) = Ok n
    /\ int_of_env (env_SCRAPE_INTERVAL env) = Ok m
    /\ MAX_RETRIES cfg = (if (n <? 2)%Z then 3%Z else n)
    /\ SCRAPE_INTERVAL cfg = (if (m <? 5)%Z then 10%Z else m)
    /\ (2 <= MAX_RETRIES cfg)%Z
    /\ (5 <= SCRAPE_INTERVAL cfg)%Z
    /\ env_BASE_URL env = Some (BASE_URL cfg)
    /\ BASE_URL cfg <> []
    /\ log = (if (n <? 2)%Z then [WarnRetriesLow] else [])
             ++ (if (m <? 5)%Z then [WarnIntervalLow] else []).
Proof.
  unfold load_settings.
  destruct (env_BASE_URL env) as [[|c u]|] eqn:B; simpl; try discriminate.
  destruct (int_of_env (env_MAX_RETRIES env)) as [n|e] eqn:R.
  2:{ destruct (is_value_or_type_error e); discriminate. }
  destruct (int_of_env (env_SCRAPE_INTERVAL env)) as [m|e] eqn:I.
  2:{ destruct (is_value_or_type_error e); discriminate. }
  intros H. inversion H; subst. clear H.
  exists n, m. simpl. repeat split; try discriminate.
  - destruct (n <? 2)%Z eqn:L; [lia|]. apply Z.ltb_ge in L. exact L.
  - destruct (m <? 5)%Z eqn:L; [lia|]. apply Z.ltb_ge in L. exact L.
Qed.

(** X2: loading the module never ends in an unhandled exception; it stops
    with exit code 1 exactly when BASE_URL is unset or empty or one of the
    two numbers is unset or not an integer literal, and it then logs the
    error of the first check that failed and nothing about the later
    ones. *)
Theorem X2_settings_exit (env : Env) :
  (forall log e, load_settings env <> (log, Crashed e))
  /\ (forall log c, load_settings env = (log, SysExit c) -> c = 1%Z)
  /\ ((exists log cfg, load_settings env = (log, Done cfg))
      <-> truthy (env_BASE_URL env) = true
          /\ (exists n, int_of_env (env_MAX_RETRIES env) = Ok n)
          /\ (exists m, int_of_env (env_SCRAPE_INTERVAL env) = Ok m))
  /\ (truthy (env_BASE_URL env) = false ->
      load_settings env = ([ErrBaseUrl], SysExit 1))
  /\ (truthy (env_BASE_URL env) = true ->
      forall e, int_of_env (env_MAX_RETRIES env) = Raise e ->
                load_settings env = ([ErrRetries], SysExit 1)).
Proof.
  unfold load_settings.
  destruct (truthy (env_BASE_URL env)) eqn:B; cbn [negb].
  2:{ split; [discriminate|]. split; [intros log c E; inversion E; reflexivity|].
      split; [|split; [reflexivity | discriminate]].
      split; [intros (log & cfg & E); discriminate | intros (E & _); discriminate]. }
  destruct (int_of_env (env_MAX_RETRIES env)) as [n|e] eqn:R.
  2:{ rewrite (int_of_env_raises _ _ R).
      split; [discriminate|]. split; [intros log c E; inversion E; reflexivity|].
      split; [|split; [discriminate | reflexivity]].
      split; [intros (log & cfg & E); discriminate | intros (_ & (n & E) & _); discriminate]. }
  destruct (int_of_env (env_SCRAPE_INTERVAL env)) as [m|e] eqn:I.
  2:{ rewrite (int_of_env_raises _ _ I).
      split; [discriminate|]. split; [intros log c E; inversion E; reflexivity|].
      split; [|split; [discriminate | intros _ e' E; discriminate]].
      split; [intros (log & cfg & E); discriminate | intros (_ & _ & (m & E)); discriminate]. }
  split; [discriminate|]. split; [discriminate|].
  split; [|split; [discriminate | intros _ e' E; discriminate]].
  split; [intros _; eauto | intros _; eauto].
Qed.

(** ** Browser start-up *)

Lemma failed_launches_cons (total : Z) (from count : nat) :
  failed_launches total from (S count)
  = ErrDriverAttempt (Z.of_nat from + 1) total :: Sleep 10
      :: failed_launches total (S from) count.
Proof. reflexivity. Qed.

Lemma attempts_first_success (launch : nat -> bool) (total : Z) (k : nat) :
  forall from left,
    k < left ->
    launch (from + k) = true ->
    (forall j, j < k -> launch (from + j) = false) ->
    attempts launch total from left
    = (failed_launches total from k ++ [InfoDriverUp], Done (from + k)).
Proof.
  induction k as [|k IH]; intros from left L T F.
  - destruct left as [|left]; [lia|]. simpl. rewrite Nat.add_0_r in T. rewrite T.
    now rewrite Nat.add_0_r.
  - destruct left as [|left]; [lia|]. cbn [attempts].
    pose proof (F 0 ltac:(lia)) as F0. rewrite Nat.add_0_r in F0. rewrite F0.
    rewrite (IH (S from) left); [| lia | | ].
    + rewrite failed_launches_cons. simpl. now rewrite Nat.add_succ_r.
    + now rewrite Nat.add_succ_comm.
    + intros j Hj. rewrite Nat.add_succ_comm. apply F. lia.
Qed.

Lemma attempts_all_fail (launch : nat -> bool) (total : Z) (left : nat) :
  forall from,
    (forall j, j < left -> launch (from + j) = false) ->
    attempts launch total from left
    = (failed_launches total from left ++ [ErrDriverGaveUp], SysExit 1).
Proof.
  induction left as [|left IH]; intros from F.
  - reflexivity.
  - cbn [attempts].
    pose proof (F 0 ltac:(lia)) as F0. rewrite Nat.add_0_r in F0. rewrite F0.
    rewrite (IH (S from)).
    + now rewrite failed_launches_cons.
    + intros j Hj. rewrite Nat.add_succ_comm. apply F. lia.
Qed.

Lemma attempts_done (launch : nat -> bool) (total : Z) (left : nat) :
  forall from log k,
    attempts launch total from left = (log, Done k) ->
    from <= k /\ k < from + left /\ launch k = true
    /\ forall j, from <= j -> j < k -> launch j = false.
Proof.
  induction left as [|left IH]; intros from log k H.
  - discriminate.
  - cbn [attempts] in H. destruct (launch from) eqn:L.
    + inversion H; subst. split; [lia|]. split; [lia|]. split; [exact L|].
      intros j A B. lia.
    + destruct (attempts launch total (S from) left) as [log' out] eqn:A.
      inversion H; subst. destruct (IH _ _ _ A) as (A1 & A2 & A3 & A4).
      split; [lia|]. split; [lia|]. split; [exact A3|].
      intros j B C. destruct (Nat.eq_dec j from) as [->|N]; [exact L|].
      apply A4; lia.
Qed.

Lemma attempts_no_crash (launch : nat -> bool) (total : Z) (left : nat) :
  forall from log e, attempts launch total from left <> (log, Crashed e).
Proof.
  induction left as [|left IH]; intros from log e H.
  - discriminate.
  - cbn [attempts] in H. destruct (launch from); [discriminate|].
    destruct (attempts launch total (S from) left) as [log' out] eqn:A.
    inversion H; subst. eapply IH; eauto.
Qed.

Lemma seconds_asleep_app (a b : list boot_record) :
  seconds_asleep (a ++ b) = (seconds_asleep a + seconds_asleep b)%Z.
Proof.
  induction a as [|r a IH]; simpl; [reflexivity|].
  destruct r; rewrite ?IH; lia.
Qed.

Lemma seconds_asleep_failed (total : Z) (count : nat) :
  forall from, seconds_asleep (failed_launches total from count) = (10 * Z.of_nat count)%Z.
Proof.
  induction count as [|count IH]; intros from.
  - reflexivity.
  - rewrite failed_launches_cons. cbn [seconds_asleep]. rewrite IH. lia.
Qed.

(** X3: [setup_driver] calls the browser constructor at most MAX_RETRIES
    times.  It returns the driver of the first call that succeeds, after
    one error and a pause of ten seconds for each call that failed before;
    when all MAX_RETRIES calls fail it has logged MAX_RETRIES errors,
    paused ten seconds after each of them, the last included, and stops
    with exit code 1.  It never lets an exception of the constructor
    out. *)
Theorem X3_setup_driver_retries (launch : nat -> bool) (max_retries : Z) :
  (forall k,
     k < Z.to_nat max_retries ->
     launch k = true ->
     (forall j, j < k -> launch j = false) ->
     setup_driver launch max_retries
     = (failed_launches max_retries 0 k ++ [InfoDriverUp], Done k))
  /\ ((forall j, j < Z.to_nat max_retries -> launch j = false) ->
      setup_driver launch max_retries
      = (failed_launches max_retries 0 (Z.to_nat max_retries) ++ [ErrDriverGaveUp], SysExit 1)
      /\ seconds_asleep (fst (setup_driver launch max_retries))
         = (10 * Z.of_nat (Z.to_nat max_retries))%Z)
  /\ (forall log k,
        setup_driver launch max_retries = (log, Done k) ->
        k < Z.to_nat max_retries /\ launch k = true
        /\ (forall j, j < k -> launch j = false)
        /\ seconds_asleep log = (10 * Z.of_nat k)%Z)
  /\ (forall log e, setup_driver launch max_retries <> (log, Crashed e)).
Proof.
  unfold setup_driver. split; [|split; [|split]].
  - intros k L T F. exact (attempts_first_success launch max_retries k 0 _ L T F).
  - intros F. rewrite (attempts_all_fail launch max_retries _ 0 F). split; [reflexivity|].
    simpl fst. rewrite seconds_asleep_app, seconds_asleep_failed. simpl. lia.
  - intros log k H. destruct (attempts_done _ _ _ _ _ _ H) as (_ & A2 & A3 & A4).
    simpl in A2.
    assert (F : forall j, j < k -> launch j = false) by (intros j Hj; apply A4; lia).
    repeat split; auto.
    rewrite (attempts_first_success launch max_retries k 0 _ A2 A3 F) in H.
    inversion H; subst. rewrite seconds_asleep_app, seconds_asleep_failed. simpl. lia.
  - apply attempts_no_crash.
Qed.

Lemma load_settings_floor (env : Env) (log : list boot_record) (cfg : Settings) :
  load_settings env = (log, Done cfg) -> (2 <= MAX_RETRIES cfg)%Z.
Proof.
  unfold load_settings.
  destruct (negb (truthy (env_BASE_URL env))); [discriminate|].
  destruct (int_of_env (env_MAX_RETRIES env)) as [n|e].
  2:{ destruct (is_value_or_type_error e); discriminate. }
  destruct (int_of_env (env_SCRAPE_INTERVAL env)) as [m|e].
  2:{ destruct (is_value_or_type_error e); discriminate. }
  intros H. inversion H; subst. simpl.
  destruct (n <? 2)%Z eqn:L; [lia|]. now apply Z.ltb_ge in L.
Qed.

(** X17: start-up as a whole.  With the settings the module accepts, a
    browser that fails to start once is started a second time, whatever
    MAX_RETRIES the environment names: a second launch that succeeds gives
    the driver after one error record and one pause of ten seconds; and
    when no launch succeeds the program exits with code 1 after at least
    twenty seconds of pauses. *)
Theorem X17_browser_is_tried_twice
        (env : Env) (log : list boot_record) (cfg : Settings) (launch : nat -> bool) :
  load_settings env = (log, Done cfg) ->
  (launch 0 = false -> launch 1 = true ->
   setup_driver launch (MAX_RETRIES cfg)
   = ([ErrDriverAttempt 1 (MAX_RETRIES cfg); Sleep 10; InfoDriverUp], Done 1))
  /\ ((forall j, launch j = false) ->
      snd (setup_driver launch (MAX_RETRIES cfg)) = SysExit 1
      /\ (20 <= seconds_asleep (fst (setup_driver launch (MAX_RETRIES cfg))))%Z).
Proof.
  intros H. pose proof (load_settings_floor env log cfg H) as F.
  assert (N : 2 <= Z.to_nat (MAX_RETRIES cfg)) by lia.
  unfold setup_driver. split.
  - intros L0 L1.
    rewrite (attempts_first_success launch (MAX_RETRIES cfg) 1 0 _).
    + reflexivity.
    + lia.
    + exact L1.
    + intros j Hj. replace j with 0 by lia. exact L0.
  - intros L.
    rewrite (attempts_all_fail launch (MAX_RETRIES cfg) _ 0) by (intros; apply L).
    cbn [fst snd]. split; [reflexivity|].
    rewrite seconds_asleep_app, seconds_asleep_failed. cbn [seconds_asleep]. lia.
Qed.

(** ** Rows, one by one *)

Lemma grow_by_nil (st : state) : grow_by [] [] st = st.
Proof. destruct st. unfold grow_by. simpl. now rewrite !app_nil_r. Qed.

Lemma grow_by_grow_by (a b : list Item) (la lb : list log_record) (st : state) :
  grow_by b lb (grow_by a la st) = grow_by (a ++ b) (la ++ lb) st.
Proof. unfold grow_by. simpl. now rewrite !app_assoc. Qed.

Lemma local_ret {A} (a : A) : local_to_badge (ret a).
Proof. intros b. exists [], [], (Ok a). intros st _. now rewrite grow_by_nil. Qed.

Lemma local_raise {A} (e : exn) : local_to_badge (@raise A e).
Proof. intros b. exists [], [], (Raise e). intros st _. now rewrite grow_by_nil. Qed.

Lemma local_lift {A} (r : result A) : local_to_badge (lift r).
Proof. intros b. exists [], [], r. intros st _. now rewrite grow_by_nil. Qed.

Lemma local_index (l : list text) (i : nat) : local_to_badge (index l i).
Proof. unfold index. destruct (nth_error l i); [apply local_ret | apply local_raise]. Qed.

Lemma local_find_element (e : option text) : local_to_badge (find_element e).
Proof. destruct e; [apply local_ret | apply local_raise]. Qed.

Lemma local_logging (r : log_record) : local_to_badge (logging r).
Proof.
  intros b. exists [], [r], (Ok tt). intros st _.
  unfold logging, modify, add_log, grow_by. now rewrite app_nil_r.
Qed.

Lemma local_append (it : Item) : local_to_badge (append it).
Proof.
  intros b. exists [it], [], (Ok tt). intros st _.
  unfold append, modify, set_items, grow_by. simpl. now rewrite app_nil_r.
Qed.

Lemma local_bind {A B} (c : M A) (k : A -> M B) :
  local_to_badge c -> (forall a, local_to_badge (k a)) -> local_to_badge (bind c k).
Proof.
  intros Hc Hk b. destruct (Hc b) as (its1 & lg1 & r1 & H1).
  destruct r1 as [a|e].
  - destruct (Hk a b) as (its2 & lg2 & r2 & H2).
    exists (its1 ++ its2), (lg1 ++ lg2), r2. intros st E.
    unfold bind. rewrite (H1 st E). rewrite H2 by exact E. now rewrite grow_by_grow_by.
  - exists its1, lg1, (Raise e). intros st E. unfold bind. now rewrite (H1 st E).
Qed.

Lemma local_try_except {A} (body : M A) (handles : exn -> bool) (handler : exn -> M A) :
  local_to_badge body -> (forall e, local_to_badge (handler e)) ->
  local_to_badge (try_except body handles handler).
Proof.
  intros Hb Hh b. destruct (Hb b) as (its1 & lg1 & r1 & H1).
  destruct r1 as [a|e]; [|destruct (handles e) eqn:Hd].
  - exists its1, lg1, (Ok a). intros st E. unfold try_except. now rewrite (H1 st E).
  - destruct (Hh e b) as (its2 & lg2 & r2 & H2).
    exists (its1 ++ its2), (lg1 ++ lg2), r2. intros st E.
    unfold try_except. rewrite (H1 st E), Hd. rewrite H2 by exact E.
    now rewrite grow_by_grow_by.
  - exists its1, lg1, (Raise e). intros st E. unfold try_except. now rewrite (H1 st E), Hd.
Qed.

Lemma local_row_period (row : Row) : local_to_badge (row_period row).
Proof.
  intros b.
  exists [], [], (Ok (match row_badge row, b with
                      | Some _, Some t => strip t
                      | _, _ => "FULL GAME" : text
                      end)).
  intros st E. rewrite row_period_eq, grow_by_nil. unfold period_of. now rewrite E.
Qed.

(** Proves [local_to_badge] goals of computations built from the operations above. *)
Ltac local_tac :=
  repeat first
    [ apply local_row_period
    | apply local_bind; [|intros ?]
    | apply local_try_except; [|intros ?]
    | apply local_ret | apply local_raise | apply local_lift
    | apply local_index | apply local_find_element | apply local_logging
    | apply local_append
    | match goal with |- local_to_badge (if ?b then _ else _) => destruct b end ].

Lemma local_parse_row (ed : text) (row : Row) : local_to_badge (parse_row ed row).
Proof.
  unfold parse_row, row_body, row_sport_league,
    moneyline_bets, draw_bet, spread_bets, over_under_bets.
  local_tac.
Qed.

(** A row does to any state what it does on its own. *)
Lemma parse_row_alone (ed : text) (row : Row) (st : state) :
  parse_row ed row st
  = (grow_by (row_items ed (final_badge (driver st)) row)
             (row_log ed (final_badge (driver st)) row) st, Ok tt).
Proof.
  destruct (local_parse_row ed row (final_badge (driver st))) as (its & lg & r & H).
  pose proof (H (bare (final_badge (driver st))) eq_refl) as H0.
  unfold row_items, row_log. rewrite H0. simpl.
  rewrite (H st eq_refl). f_equal.
  pose proof (parse_row_no_raise ed row st) as N. rewrite (H st eq_refl) in N. exact N.
Qed.

Lemma for_rows_alone (ed : text) (rows : list Row) (st : state) :
  for_rows ed rows st
  = (grow_by (flat_map (row_items ed (final_badge (driver st))) rows)
             (flat_map (row_log ed (final_badge (driver st))) rows) st, Ok tt).
Proof.
  revert st. induction rows as [|row rest IH]; intros st.
  - simpl. now rewrite grow_by_nil.
  - rewrite for_rows_cons, parse_row_alone. cbn [fst]. rewrite IH.
    cbn [grow_by driver flat_map]. now rewrite grow_by_grow_by.
Qed.

(** X4: the rows of a page are processed independently and in order: the
    loop adds to the records the contributions of the rows, each as the row
    gives it on its own, one after the other, and likewise for the log; what
    a row adds depends on the row, the date and the page's FINAL badge, not
    on the rows before it, and a row that fails takes nothing from the
    others. *)
Theorem X4_rows_independent (ed : text) (rows : list Row) (row : Row) (st : state) :
  parse_row ed row st
  = (grow_by (row_items ed (final_badge (driver st)) row)
             (row_log ed (final_badge (driver st)) row) st, Ok tt)
  /\ for_rows ed rows st
     = (grow_by (flat_map (row_items ed (final_badge (driver st))) rows)
                (flat_map (row_log ed (final_badge (driver st))) rows) st, Ok tt).
Proof.
  split; [apply parse_row_alone|].
  revert st. induction rows as [|r rest IH]; intros st.
  - simpl. now rewrite grow_by_nil.
  - rewrite for_rows_cons, parse_row_alone. cbn [fst]. rewrite IH.
    cbn [grow_by driver flat_map]. now rewrite grow_by_grow_by.
Qed.

(** ** A cycle *)

(** The date resolver returns a date when the date is readable, and raises
    [ValueError] without a change of state when it is not. *)
Lemma get_event_date_cases (st : state) :
  (date_readable st = true /\ exists d st1, get_event_date st = (st1, Ok d))
  \/ (date_readable st = false /\ get_event_date st = (st, Raise ValueError)).
Proof.
  unfold date_readable.
  destruct (truthy (cached_event_date st)) eqn:T.
  - left. split; [reflexivity|].
    destruct (cached_event_date st) as [c|] eqn:E; [|discriminate].
    exists c, st. now apply get_event_date_cached.
  - destruct (falls_back (datepicker (driver st))) eqn:F.
    + left. split; [reflexivity|]. eexists _, _. exact (get_event_date_fallback st T F).
    + cbn [orb]. destruct (datepicker (driver st)) as [[raw|]|] eqn:E; try discriminate.
      assert (Rt : truthy (Some raw) = true) by (simpl in F; now apply negb_false_iff in F).
      pose proof (get_event_date_parsed st raw T E Rt) as P.
      destruct (strptime _) as [p|e] eqn:S.
      * left. split; [reflexivity|]. eauto.
      * right. split; [reflexivity|]. apply strptime_raises in S. now subst.
Qed.

(** Resetting the list of records changes nothing for the date resolver. *)
Lemma get_event_date_log_items (st st1 : state) (d : text) :
  get_event_date (set_items [] st) = (st1, Ok d) ->
  log st1 = log (fst (get_event_date st)).
Proof.
  intros H.
  destruct (truthy (cached_event_date st)) eqn:T.
  - destruct (cached_event_date st) as [c|] eqn:E; [|discriminate].
    rewrite (get_event_date_cached (set_items [] st) c E T) in H.
    rewrite (get_event_date_cached st c E T). inversion H; reflexivity.
  - destruct (falls_back (datepicker (driver st))) eqn:F.
    + rewrite (get_event_date_fallback (set_items [] st) T F) in H.
      rewrite (get_event_date_fallback st T F). inversion H; reflexivity.
    + destruct (datepicker (driver st)) as [[raw|]|] eqn:E; try discriminate.
      assert (Rt : truthy (Some raw) = true) by (simpl in F; now apply negb_false_iff in F).
      rewrite (get_event_date_parsed (set_items [] st) raw T E Rt) in H.
      rewrite (get_event_date_parsed st raw T E Rt).
      simpl clock in H. destruct (strptime _) as [p|e]; inversion H; reflexivity.
Qed.

Lemma parse_game_data_rows (st st1 : state) (d : text) (rows : list Row) :
  get_event_date (set_items [] st) = (st1, Ok d) ->
  game_rows (driver st) = Visible rows ->
  parse_game_data st
  = (grow_by (flat_map (row_items d (final_badge (driver st))) rows)
             (flat_map (row_log d (final_badge (driver st))) rows) st1,
     Ok (flat_map (row_items d (final_badge (driver st))) rows)).
Proof.
  intros H G.
  pose proof (get_event_date_frame (set_items [] st)) as (D & _ & I).
  rewrite H in D, I. simpl in D, I.
  unfold parse_game_data.
  erewrite bind_ok by reflexivity.
  erewrite bind_ok.
  2:{ apply try_except_ok. erewrite (bind_ok _ _ _ _ _ H).
      erewrite bind_ok by reflexivity. rewrite D, G. erewrite bind_ok by reflexivity.
      rewrite for_rows_alone. rewrite D. reflexivity. }
  unfold bind, get, ret. cbn [grow_by items]. now rewrite I.
Qed.

Lemma parse_game_data_timeout (st st1 : state) (d : text) :
  get_event_date (set_items [] st) = (st1, Ok d) ->
  game_rows (driver st) = TimedOut ->
  parse_game_data st = (add_log WarnPageTimeout st1, Ok []).
Proof.
  intros H G.
  pose proof (get_event_date_frame (set_items [] st)) as (D & _ & I).
  rewrite H in D, I. simpl in D, I.
  unfold parse_game_data.
  erewrite bind_ok by reflexivity.
  erewrite bind_ok.
  2:{ unfold try_except.
      erewrite (bind_ok _ _ _ _ _ H). erewrite bind_ok by reflexivity. rewrite D, G.
      erewrite bind_raise by reflexivity. simpl. reflexivity. }
  unfold bind, get, ret. cbn [add_log items]. now rewrite I.
Qed.

(** X5: when the date is readable and the rows show, the cycle function
    raises nothing and returns the contributions of the rows in row order,
    each as the row gives it on its own with the resolved date, and nothing
    else; the resolved date is in the cache afterwards. *)
Theorem X5_cycle_is_rows_in_order (st : state) (rows : list Row) :
  date_readable st = true ->
  game_rows (driver st) = Visible rows ->
  exists d st',
    parse_game_data st
    = (st', Ok (flat_map (row_items d (final_badge (driver st))) rows))
    /\ cached_event_date st' = Some d
    /\ log st' = log (fst (get_event_date st))
                 ++ flat_map (row_log d (final_badge (driver st))) rows.
Proof.
  intros R G.
  destruct (get_event_date_cases (set_items [] st)) as [(_ & d & st1 & H)|(R' & _)];
    [|unfold date_readable in *; simpl in *; congruence].
  exists d. eexists. rewrite (parse_game_data_rows st st1 d rows H G).
  split; [reflexivity|].
  destruct (get_event_date_caches _ _ _ H) as [C _].
  split; [exact C|]. cbn [grow_by log]. f_equal.
  exact (get_event_date_log_items st st1 d H).
Qed.

(** X6: when the date is readable and the wait for the rows times out, the
    cycle function raises nothing, returns the empty list and logs the
    page-timeout warning last; the date has been resolved and cached all
    the same. *)
Theorem X6_rows_timeout_gives_empty_cycle (st : state) :
  date_readable st = true ->
  game_rows (driver st) = TimedOut ->
  exists d st',
    parse_game_data st = (st', Ok [])
    /\ cached_event_date st' = Some d
    /\ log st' = log (fst (get_event_date st)) ++ [WarnPageTimeout].
Proof.
  intros R G.
  destruct (get_event_date_cases (set_items [] st)) as [(_ & d & st1 & H)|(R' & _)];
    [|unfold date_readable in *; simpl in *; congruence].
  exists d. eexists. rewrite (parse_game_data_timeout st st1 d H G).
  split; [reflexivity|].
  destruct (get_event_date_caches _ _ _ H) as [C _].
  split; [exact C|]. cbn [add_log log]. f_equal.
  exact (get_event_date_log_items st st1 d H).
Qed.

(** X7: the cycle function lets an exception out exactly when the date is
    not readable, that is when nothing is cached and the date control
    holds a non-empty value that [strptime] rejects; the exception is then
    a [ValueError], no row has been read, nothing has been logged or
    cached.  A timeout, an [IndexError] or a missing element never leaves
    it. *)
Theorem X7_cycle_raises_only_on_unread_date (st : state) :
  (date_readable st = false <-> exists st' e, parse_game_data st = (st', Raise e))
  /\ (forall st' e,
        parse_game_data st = (st', Raise e) ->
        e = ValueError /\ st' = set_items [] st
        /\ truthy (cached_event_date st) = false
        /\ exists raw,
             datepicker (driver st) = Visible (Some raw) /\ raw <> []
             /\ strptime (raw ++ " " ++ strftime_hms (now (clock st))) = Raise ValueError).
Proof.
  assert (A : date_readable st = false ->
              parse_game_data st = (set_items [] st, Raise ValueError)).
  { intros R.
    destruct (get_event_date_cases (set_items [] st)) as [(R' & _)|(_ & H)];
      [unfold date_readable in *; simpl in *; congruence|].
    exact (parse_game_data_raise st _ _ H). }
  assert (B : forall st' e, parse_game_data st = (st', Raise e) -> date_readable st = false).
  { intros st' e H. destruct (date_readable st) eqn:R; [|reflexivity].
    destruct (get_event_date_cases (set_items [] st)) as [(_ & d & st1 & G)|(R' & _)];
      [|unfold date_readable in *; simpl in *; congruence].
    destruct (parse_game_data_ok st st1 d G) as (st2 & its & P & _). congruence. }
  split; [split|].
  - intros R. eexists _, _. exact (A R).
  - intros (st' & e & H). exact (B st' e H).
  - intros st' e H. pose proof (B st' e H) as R. rewrite (A R) in H.
    inversion H; subst. split; [reflexivity|]. split; [reflexivity|].
    unfold date_readable in R. apply orb_false_iff in R. destruct R as [R S].
    apply orb_false_iff in R. destruct R as [T F].
    split; [exact T|].
    destruct (datepicker (driver st)) as [[raw|]|]; try discriminate.
    exists raw. split; [reflexivity|].
    split; [intros ->; discriminate|].
    destruct (strptime _) as [p|e] eqn:P; [discriminate|].
    apply strptime_raises in P. now subst.
Qed.

(** ** The records of a row *)

(** What a row adds to the records and how its body ends. *)
Lemma row_body_count (ed : text) (row : Row) (st st' : state) (r : result unit) :
  2 <= List.length (team_names row) ->
  2 <= List.length (moneyline_prices row) ->
  row_body ed row st = (st', r) ->
  exists k, st' = emit k st /\
    ((r = Raise IndexError
      /\ (List.length k = 0 \/ List.length k = 1 \/ List.length k = 5 \/ List.length k = 6))
     \/ (r = Ok tt /\ 4 <= List.length k <= 7)).
Proof.
  intros Ht Hm H. rewrite (row_body_long ed row st Ht Hm) in H.
  unfold row_markets in H.
  set (lg := league_of row) in *.
  set (t1 := nth 0 (team_names row) []) in *.
  set (t2 := nth 1 (team_names row) []) in *.
  set (pd := period_of (driver st) row) in *.
  destruct (spread_prices row) as [|s0 [|s1 ss]] eqn:Es.
  1,2: erewrite bind_raise in H
         by (apply moneyline_bets_raise_first; [exact Hm | rewrite Es; simpl; lia]);
       inversion H; subst; exists []; rewrite emit_nil; split; [reflexivity|];
       left; split; [reflexivity | left; reflexivity].
  destruct (moneyline_prices row) as [|m0 [|m1 ms]] eqn:Em; simpl in Hm; try lia.
  destruct ms as [|m2 ms]; [|destruct ss as [|s2 ss]].
  1,2: erewrite bind_raise in H
         by (eapply moneyline_bets_raise_second; [exact Em | exact Es | auto]);
       inversion H; subst; eexists; split; [reflexivity|];
       left; split; [reflexivity | right; left; reflexivity].
  erewrite bind_ok in H by (eapply moneyline_bets_run; [exact Em | exact Es]).
  erewrite bind_ok in H by apply draw_bet_run.
  erewrite bind_ok in H by (eapply spread_bets_run; exact Es).
  rewrite !emit_emit in H.
  destruct (contains "SOCCER" lg && (4 <=? List.length (moneyline_prices row)));
    destruct (total_prices row) as [|o0 [|o1 [|o2 os]]] eqn:Eo.
  1,2,5,6: rewrite over_under_bets_skip in H by (rewrite Eo; simpl; lia);
       inversion H; subst; eexists; split; [reflexivity|];
       right; split; [reflexivity | simpl; lia].
  1,3: erewrite over_under_bets_raise in H by (first [exact Eo | exact Es]);
       rewrite emit_emit in H;
       inversion H; subst; eexists; split; [reflexivity|];
       left; split; [reflexivity | simpl; lia].
  1,2: erewrite over_under_bets_run in H by (first [exact Eo | exact Es]);
       rewrite emit_emit in H;
       inversion H; subst; eexists; split; [reflexivity|];
       right; split; [reflexivity | simpl; lia].
Qed.

(** X8: every row ends in one of three ways.  It is processed in full,
    logs nothing and adds 4 to 7 records; or it is skipped by the check,
    logs the missing-data warning and adds none; or an [IndexError] stops
    it, it logs the row-error warning once and adds 0, 1, 5 or 6 records.
    So a row never adds more than 7 records, and never fewer than 4
    without a warning in the log. *)
Theorem X8_row_outcomes (ed : text) (badge : option text) (row : Row) :
  (row_log ed badge row = []
   /\ 4 <= List.length (row_items ed badge row) <= 7
   /\ 2 <= List.length (team_names row) /\ 2 <= List.length (moneyline_prices row))
  \/ (row_log ed badge row = [WarnMissingData]
      /\ row_items ed badge row = []
      /\ (List.length (team_names row) < 2 \/ List.length (moneyline_prices row) < 2))
  \/ (row_log ed badge row = [WarnRowError IndexError]
      /\ (List.length (row_items ed badge row) = 0
          \/ List.length (row_items ed badge row) = 1
          \/ List.length (row_items ed badge row) = 5
          \/ List.length (row_items ed badge row) = 6)
      /\ 2 <= List.length (team_names row) /\ 2 <= List.length (moneyline_prices row)).
Proof.
  unfold row_log, row_items.
  destruct (row_body ed row (bare badge)) as [st' r] eqn:B.
  rewrite (parse_row_of_body _ _ _ _ _ B).
  destruct (le_lt_dec 2 (List.length (team_names row))) as [Ht|Ht];
    [destruct (le_lt_dec 2 (List.length (moneyline_prices row))) as [Hm|Hm]|].
  - destruct (row_body_count ed row _ _ _ Ht Hm B) as (k & -> & [(-> & L)|(-> & L)]).
    + right. right. simpl. auto.
    + left. simpl. auto.
  - right. left. rewrite row_body_short in B by auto. inversion B; subst. simpl. auto.
  - right. left. rewrite row_body_short in B by auto. inversion B; subst. simpl. auto.
Qed.

(** X11: the records a row adds are the first [row_count row] of the
    records of the full row: none when a team name, a moneyline price or
    the second spread entry is missing; the first moneyline record alone
    when the third moneyline or spread entry is missing; otherwise both
    moneyline records, the draw on a soccer row with a fourth moneyline
    entry, both spread records, and of the over/under records none, the
    first or both as the total column has fewer than two, two, or more
    entries.  Every spread value, those of the moneyline and over/under
    records too, is read from the spread column. *)
Theorem X11_row_records_closed_form (ed : text) (badge : option text) (row : Row) :
  row_items ed badge row = firstn (row_count row) (row_records ed badge row).
Proof.
  unfold row_items.
  destruct (row_body ed row (bare badge)) as [st' r] eqn:B.
  rewrite (parse_row_of_body _ _ _ _ _ B).
  assert (G : items st' = firstn (row_count row) (row_records ed badge row));
    [|destruct r; exact G].
  unfold row_count, row_records.
  destruct (Nat.ltb_spec (List.length (team_names row)) 2) as [Ht|Ht];
    [|destruct (Nat.ltb_spec (List.length (moneyline_prices row)) 2) as [Hm|Hm]].
  1,2: rewrite row_body_short in B by auto; inversion B; subst; reflexivity.
  rewrite (row_body_long ed row _ Ht Hm) in B. unfold row_markets in B.
  cbn [orb].
  set (lg := league_of row) in *.
  set (t1 := nth 0 (team_names row) []) in *.
  set (t2 := nth 1 (team_names row) []) in *.
  set (pd := period_of (driver (bare badge)) row) in *.
  destruct (spread_prices row) as [|s0 [|s1 ss]] eqn:Es.
  1,2: erewrite bind_raise in B
         by (apply moneyline_bets_raise_first; [exact Hm | rewrite Es; simpl; lia]);
       inversion B; subst; reflexivity.
  destruct (moneyline_prices row) as [|m0 [|m1 ms]] eqn:Em; simpl in Hm; try lia.
  destruct ms as [|m2 ms]; [|destruct ss as [|s2 ss]].
  1,2: erewrite bind_raise in B
         by (eapply moneyline_bets_raise_second; [exact Em | exact Es | auto]);
       inversion B; subst; reflexivity.
  erewrite bind_ok in B by (eapply moneyline_bets_run; [exact Em | exact Es]).
  erewrite bind_ok in B by apply draw_bet_run.
  erewrite bind_ok in B by (eapply spread_bets_run; exact Es).
  rewrite !emit_emit in B. rewrite Em in B.
  destruct (contains "SOCCER" lg && (4 <=? List.length (m0 :: m1 :: m2 :: ms)));
    destruct (total_prices row) as [|o0 [|o1 [|o2 os]]] eqn:Eo;
    cbn [List.length Nat.ltb Nat.leb orb nth].
  1,2,5,6: rewrite over_under_bets_skip in B by (rewrite Eo; simpl; lia);
       inversion B; subst; reflexivity.
  1,3: erewrite over_under_bets_raise in B by (first [exact Eo | exact Es]);
       rewrite emit_emit in B; inversion B; subst; reflexivity.
  1,2: erewrite over_under_bets_run in B by (first [exact Eo | exact Es]);
       rewrite emit_emit in B; inversion B; subst; reflexivity.
Qed.

(** Every record of a row holds the league, date, teams and period of the
    row, and no pitcher. *)
Lemma row_markets_keeps_fields (lg ed t1 t2 pd : text) (row : Row) :
  keeps (fun it => sport_league it = lg /\ event_date_utc it = ed
                   /\ team1 it = t1 /\ team2 it = t2 /\ period it = pd
                   /\ pitcher it = [])
        (row_markets lg ed t1 t2 pd row).
Proof.
  unfold row_markets, moneyline_bets, draw_bet, spread_bets, over_under_bets.
  keeps_tac; repeat split.
Qed.

(** X9: the records of one row agree on league, date, teams and period:
    the league is the one read from the row's link, the date the one the
    row was given, the teams the texts of the row's first two team
    elements, the period the one the page's FINAL badge gives; the pitcher
    is always empty. *)
Theorem X9_row_records_share_fields (ed : text) (badge : option text) (row : Row) :
  Forall (fun it =>
            sport_league it = league_of row
            /\ event_date_utc it = ed
            /\ team1 it = nth 0 (team_names row) []
            /\ team2 it = nth 1 (team_names row) []
            /\ period it = match row_badge row, badge with
                           | Some _, Some t => strip t
                           | _, _ => "FULL GAME"
                           end
            /\ pitcher it = [])
         (row_items ed badge row).
Proof.
  unfold row_items.
  destruct (row_body ed row (bare badge)) as [st' r] eqn:B.
  rewrite (parse_row_of_body _ _ _ _ _ B).
  assert (G : Forall (fun it =>
                        sport_league it = league_of row
                        /\ event_date_utc it = ed
                        /\ team1 it = nth 0 (team_names row) []
                        /\ team2 it = nth 1 (team_names row) []
                        /\ period it = period_of (driver (bare badge)) row
                        /\ pitcher it = []) (items st')).
  { destruct (le_lt_dec 2 (List.length (team_names row))) as [Ht|Ht];
      [destruct (le_lt_dec 2 (List.length (moneyline_prices row))) as [Hm|Hm]|].
    - rewrite (row_body_long ed row _ Ht Hm) in B.
      pose proof (row_markets_keeps_fields (league_of row) ed (nth 0 (team_names row) [])
                    (nth 1 (team_names row) []) (period_of (driver (bare badge)) row)
                    row (bare badge)) as (_ & _ & _ & k & I & F).
      rewrite B in I. simpl in I. rewrite I. exact F.
    - rewrite row_body_short in B by auto. inversion B; subst. constructor.
    - rewrite row_body_short in B by auto. inversion B; subst. constructor. }
  destruct r; exact G.
Qed.

Lemma row_body_keeps_form (ed : text) (row : Row) : keeps record_form (row_body ed row).
Proof.
  unfold row_body, row_sport_league, row_period,
    moneyline_bets, draw_bet, spread_bets, over_under_bets.
  keeps_tac; unfold record_form; simpl; (split; [reflexivity|]);
    first [ left; repeat split; auto; fail
          | left; repeat split; right; left; reflexivity
          | left; repeat split; right; right; split; reflexivity
          | right; left; repeat split; auto; fail
          | right; left; repeat split; right; reflexivity
          | right; right; repeat split; auto ].
Qed.

Lemma row_items_form (ed : text) (badge : option text) (row : Row) :
  Forall record_form (row_items ed badge row).
Proof.
  unfold row_items, parse_row.
  pose proof (keeps_try_except record_form (row_body ed row) (fun _ => true)
                (fun e => logging (WarnRowError e)) (row_body_keeps_form ed row)
                (fun e => keeps_logging record_form (WarnRowError e)) (bare badge))
    as (_ & _ & _ & k & I & F).
  rewrite I. exact F.
Qed.

(** X10: every record a cycle returns has one of the three line types:
    a moneyline record names a team of its game, or is the draw with
    spread 0.0; a spread record names a team of its game; an over/under
    record has team "total" and side "over" or "under".  Side and team
    agree on moneyline and spread records, and no record has a pitcher. *)
Theorem X10_records_well_formed (st st' : state) (its : list Item) :
  parse_game_data st = (st', Ok its) ->
  Forall record_form its.
Proof.
  intros H.
  destruct (get_event_date_cases (set_items [] st)) as [(_ & d & st1 & G)|(_ & G)].
  - destruct (game_rows (driver st)) as [rows|] eqn:R.
    + rewrite (parse_game_data_rows st st1 d rows G R) in H. inversion H; subst.
      apply Forall_flat_map. apply Forall_forall. intros row _. apply row_items_form.
    + rewrite (parse_game_data_timeout st st1 d G R) in H. inversion H; subst. constructor.
  - rewrite (parse_game_data_raise st _ _ G) in H. discriminate.
Qed.

(** ** A date read from the control *)





Section Fields.
Variables (R : Type) (a b : ascii) (rest : text) (caps : captures)
          (k : text -> captures -> option R) (x : R).






End Fields.












(** ** The cells of a row *)
















(** ** The main loop *)

Lemma main_turn_ok (st st1 : state) (w : World) (d : text) :
  get_event_date (set_items [] (fst (driver_get w st))) = (st1, Ok d) ->
  exists st', main_turn w st = (st', Ok (turn_records d w))
              /\ cached_event_date st' = Some d.
Proof.
  intros G. destruct (get_event_date_caches _ _ _ G) as [C _].
  unfold main_turn, turn_records, bind. 
  destruct (driver_get w st) as [st0 r0] eqn:D.
  unfold driver_get, modify in D. inversion D; subst. clear D. cbn [fst] in G.
  destruct (game_rows (served w)) as [rows|] eqn:R.
  - rewrite (parse_game_data_rows _ st1 d rows G R).
    eexists. split; [reflexivity|]. exact C.
  - rewrite (parse_game_data_timeout _ st1 d G R).
    eexists. split; [reflexivity|]. exact C.
Qed.

Lemma main_loop_cached (ws : list World) (st : state) (d : text) :
  cached_event_date st = Some d -> truthy (Some d) = true ->
  exists st', main_loop ws st = (st', Ok (map (turn_records d) ws))
              /\ cached_event_date st' = Some d.
Proof.
  intros E T. revert st E. induction ws as [|w rest IH]; intros st E.
  - exists st. split; [reflexivity | exact E].
  - assert (G : get_event_date (set_items [] (fst (driver_get w st)))
                = (set_items [] (fst (driver_get w st)), Ok d))
      by (apply get_event_date_cached; [exact E | exact T]).
    destruct (main_turn_ok st _ w d G) as (st1 & M & C1).
    destruct (IH st1 C1) as (st2 & L & C2).
    exists st2. split; [|exact C2].
    cbn [main_loop map]. unfold bind. rewrite M, L. reflexivity.
Qed.

(** X16: the main loop, turn by turn.  When the first turn can read its
    date, no turn raises, every turn saves the records of its own page
    only (nothing is carried over from the turn before) and all of them
    with the date of the first turn, the cached one when there is one;
    when the first turn cannot, the [ValueError] ends the loop there. *)
Theorem X16_loop_turns (st : state) (w : World) (ws : list World) :
  (date_readable (fst (driver_get w st)) = true ->
   exists d st',
     main_loop (w :: ws) st = (st', Ok (map (turn_records d) (w :: ws)))
     /\ cached_event_date st' = Some d
     /\ (forall c, cached_event_date st = Some c -> truthy (Some c) = true -> d = c))
  /\ (date_readable (fst (driver_get w st)) = false ->
      exists st', main_loop (w :: ws) st = (st', Raise ValueError)).
Proof.
  split; intros R.
  - destruct (get_event_date_cases (set_items [] (fst (driver_get w st))))
      as [(_ & d & st1 & G)|(R' & _)];
      [|unfold date_readable in *; simpl in *; congruence].
    destruct (main_turn_ok st st1 w d G) as (st2 & M & C2).
    destruct (get_event_date_caches _ _ _ G) as [_ T].
    destruct (main_loop_cached ws st2 d C2 T) as (st3 & L & C3).
    exists d, st3. split; [|split; [exact C3|]].
    + cbn [main_loop map]. unfold bind. rewrite M, L. reflexivity.
    + intros c E Tc.
      rewrite (get_event_date_cached (set_items [] (fst (driver_get w st))) c E Tc) in G.
      congruence.
  - destruct (get_event_date_cases (set_items [] (fst (driver_get w st))))
      as [(R' & _)|(_ & G)];
      [unfold date_readable in *; simpl in *; congruence|].
    eexists. cbn [main_loop]. unfold bind at 1. unfold main_turn. unfold bind at 1.
    unfold driver_get at 1, modify. unfold bind at 1.
    unfold driver_get, modify in G. cbn [fst] in G.
    rewrite (parse_game_data_raise _ _ _ G). reflexivity.
Qed.

(** ** The league text *)

Lemma upper_char_not_lower (c : ascii) : is_lower (upper_char c) = false.
Proof.
  unfold upper_char. fold (is_lower c). destruct (is_lower c) eqn:E; [|exact E].
  unfold is_lower in *. apply andb_true_iff in E. destruct E as [L U].
  apply Nat.leb_le in L, U. unfold code in *.
  rewrite nat_ascii_embedding by lia.
  apply andb_false_iff. left. apply Nat.leb_gt. lia.
Qed.

Lemma upper_app (a b : text) : upper (a ++ b) = upper a ++ upper b.
Proof. apply map_app. Qed.

(** X15: the league of a row holds no lowercase ASCII letter, and a text
    the last "f=" piece of the link contains is contained, uppercased, in
    the league: the SOCCER test of the draw block sees "soccer" in the
    link whatever its letter case. *)
Theorem X15_league_is_upper_case (row : Row) :
  Forall (fun c => is_lower c = false) (league_of row)
  /\ (forall href q,
        sport_elem row = Some href ->
        contains q (last_piece (split "f=" href)) = true ->
        contains (upper q) (league_of row) = true).
Proof.
  unfold league_of. split.
  - destruct (sport_elem row) as [href|].
    + apply Forall_forall. intros c H. unfold upper in H.
      apply in_map_iff in H. destruct H as (a & <- & _). apply upper_char_not_lower.
    + repeat constructor.
  - intros href q -> H. apply contains_spec in H. destruct H as (pre & post & ->).
    apply contains_spec. exists (upper pre), (upper post). now rewrite !upper_app.
Qed.

(** * The further properties on the sample pages *)

Lemma X1_witness :
  load_settings low_env
  = ([WarnRetriesLow; WarnIntervalLow],
     Done (MkSettings "https://veri.bet/odds-picks" 3 10))
  /\ exists n m,
       int_of_env (env_MAX_RETRIES low_env) = Ok n
       /\ int_of_env (env_SCRAPE_INTERVAL low_env) = Ok m
       /\ 3%Z = (if (n <? 2)%Z then 3%Z else n)
       /\ 10%Z = (if (m <? 5)%Z then 10%Z else m).
Proof.
  assert (H : load_settings low_env
              = ([WarnRetriesLow; WarnIntervalLow],
                 Done (MkSettings "https://veri.bet/odds-picks" 3 10)))
    by (vm_compute; reflexivity).
  split; [exact H|].
  destruct (X1_settings_floors low_env _ _ H) as (n & m & A & B & C & D & _).
  exists n, m. exact (conj A (conj B (conj C D))).
Defined.

Lemma X17_witness :
  load_settings low_env
  = ([WarnRetriesLow; WarnIntervalLow],
     Done (MkSettings "https://veri.bet/odds-picks" 3 10))
  /\ setup_driver (fun k => k =? 1) 3 = ([ErrDriverAttempt 1 3; Sleep 10; InfoDriverUp], Done 1).
Proof.
  assert (H : load_settings low_env
              = ([WarnRetriesLow; WarnIntervalLow],
                 Done (MkSettings "https://veri.bet/odds-picks" 3 10)))
    by (vm_compute; reflexivity).
  split; [exact H|].
  exact (proj1 (X17_browser_is_tried_twice low_env _ _ (fun k => k =? 1) H) eq_refl eq_refl).
Defined.

Lemma X5_witness :
  date_readable (start jan15) = true
  /\ exists d st',
       parse_game_data (start jan15) = (st', Ok (flat_map (row_items d None) [lions_bears]))
       /\ cached_event_date st' = Some d.
Proof.
  split; [reflexivity|].
  destruct (X5_cycle_is_rows_in_order (start jan15) [lions_bears] eq_refl eq_refl)
    as (d & st' & P & C & _).
  exists d, st'. split; [exact P | exact C].
Defined.

Lemma X6_witness :
  game_rows (driver (start rows_missing)) = TimedOut
  /\ exists d st',
       parse_game_data (start rows_missing) = (st', Ok [])
       /\ cached_event_date st' = Some d.
Proof.
  split; [reflexivity|].
  destruct (X6_rows_timeout_gives_empty_cycle (start rows_missing) eq_refl eq_refl)
    as (d & st' & P & C & _).
  exists d, st'. split; [exact P | exact C].
Defined.

Lemma X10_witness :
  parse_game_data (start jan15)
  = (fst (parse_game_data (start jan15)), Ok (row_items stamp None lions_bears))
  /\ Forall record_form (row_items stamp None lions_bears).
Proof.
  assert (H : parse_game_data (start jan15)
              = (fst (parse_game_data (start jan15)), Ok (row_items stamp None lions_bears)))
    by (vm_compute; reflexivity).
  split; [exact H|].
  exact (X10_records_well_formed (start jan15) _ _ H).
Defined.




(** * Sanity checks of the embedding *)

Example strip_ex : strip ([" "%char; ascii_of_nat 9] ++ "even" ++ [ascii_of_nat 10; " "%char]) = "even".
Proof. reflexivity. Qed.

Example spread_ex1 : extract_spread "+3.5 pts" = Ok (7 # 2)%Q.
Proof. reflexivity. Qed.
Example spread_ex2 : extract_spread "no number" = Ok 0%Q.
Proof. reflexivity. Qed.
Example spread_ex3 : extract_spread "-7" = Ok (-7 # 1)%Q.
Proof. reflexivity. Qed.
Example spread_ex4 : extract_spread "a+-12.50.3" = Ok (-25 # 2)%Q.
Proof. reflexivity. Qed.
Example price_ex1 : extract_price "(-110)" = "-110".
Proof. reflexivity. Qed.
Example price_ex2 : extract_price " even " = "even".
Proof. reflexivity. Qed.
Example price_ex3 : extract_price "-3.5 (12x) (+105) (3)" = "+105".
Proof. reflexivity. Qed.

Example strptime_ex1 : strptime "01-15-2024 09:05:59" = Ok (DateTime 2024 1 15 9 5 59).
Proof. reflexivity. Qed.
Example strptime_ex2 : strptime "2024-01-15 09:05:59" = Raise ValueError.
Proof. reflexivity. Qed.
Example strptime_ex3 : strptime "2-29-2023 09:05:59" = Raise ValueError.
Proof. reflexivity. Qed.
Example strptime_ex4 :
  strptime ("2-29-2024" ++ [" "%char; ascii_of_nat 9; " "%char] ++ "09:05:59")
  = Ok (DateTime 2024 2 29 9 5 59).
Proof. reflexivity. Qed.
Example strftime_ex1 : strftime_iso (DateTime 2024 1 15 9 5 59) = "2024-01-15T09:05:59+00:00".
Proof. reflexivity. Qed.
